(** * Smart Travel: a shallow embedding of [travel/views.py]

    The view module is a handful of Python functions that call three HTTP
    services and a MongoDB collection and reshape the decoded JSON.  The
    embedding keeps the source's shape:

    - decoded JSON and the dictionaries the views build are values of
      [pyval]; the dynamic operations the source applies to them
      (subscripting, [in], [.get], [.lower()], [len], truth testing,
      iteration, arithmetic, [round]) are functions into [result], which
      carries the exception a Python operation raises;
    - Python floats are binary64 numbers (the primitive [float]);
    - the outside world (HTTP services, clock, MongoDB server, process
      environment) is an [environment] of oracles indexed by a tick that
      advances at every external call, and the views run in a state and
      exception monad [M] over a [world] that holds the tick, the stored
      collection and the printed log. *)

From Stdlib Require Import ZArith List String Ascii Bool Lia Floats.
From Stdlib Require Import DecimalString.
From Stdlib Require Import Sorting.Sorted Sorting.Permutation.
Import ListNotations.

Set Warnings "-inexact-float,-register-all".

Local Open Scope string_scope.
Local Open Scope Z_scope.

(** ** Exceptions and results *)

Inductive exn : Type :=
| KeyError
| IndexError
| TypeError
| AttributeError
| OverflowError
| RequestException   (* requests: connection error, timeout, ... *)
| JSONDecodeError    (* response.json() on a body that is not JSON *)
| RecursionError     (* response.json() on a body nested too deep *)
| ValueError         (* response.json() on an integer literal too long *)
| PyMongoError.      (* pymongo: connection or operation failure *)

Inductive result (A : Type) : Type :=
| Ok (a : A)
| Raise (e : exn).
Arguments Ok {A} a.
Arguments Raise {A} e.

Definition rbind {A B : Type} (r : result A) (k : A -> result B) : result B :=
  match r with
  | Ok a => k a
  | Raise e => Raise e
  end.

Notation "x <- r ;; k" := (rbind r (fun x => k))
  (at level 100, r at next level, right associativity).

(** ** Strings

    A Python [str] is modelled by its sequence of code points, for code
    points below 256; on these [str.lower] maps [A-Z] and the upper-case
    Latin-1 letters (192..222 except the multiplication sign 215) 32
    places up and leaves every other code point alone. *)

Definition lower_char (c : ascii) : ascii :=
  let n := N_of_ascii c in
  if ((65 <=? n) && (n <=? 90) ||
      (192 <=? n) && (n <=? 222) && negb (n =? 215))%N
  then ascii_of_N (n + 32)
  else c.

Fixpoint str_lower (s : string) : string :=
  match s with
  | EmptyString => EmptyString
  | String c t => String (lower_char c) (str_lower t)
  end.

(** [needle in hay] on two strings: substring search. *)
Fixpoint str_in (needle hay : string) : bool :=
  String.prefix needle hay ||
  match hay with
  | EmptyString => false
  | String _ t => str_in needle t
  end.

(** ** Python values *)

Inductive pyval : Type :=
| PNone
| PBool (b : bool)
| PInt (z : Z)
| PFloat (f : float)
| PStr (s : string)
| PList (l : list pyval)
| PDict (d : list (string * pyval)).

Fixpoint assoc_get (k : string) (d : list (string * pyval)) : option pyval :=
  match d with
  | [] => None
  | (k', v) :: d' => if String.eqb k k' then Some v else assoc_get k d'
  end.

Definition assoc_mem (k : string) (d : list (string * pyval)) : bool :=
  match assoc_get k d with Some _ => true | None => false end.

(** Truth value testing ([if x], [not x], [x and y]). *)
Definition py_truthy (v : pyval) : bool :=
  match v with
  | PNone => false
  | PBool b => b
  | PInt z => negb (z =? 0)
  | PFloat f => negb (PrimFloat.eqb f 0%float)
  | PStr s => negb (String.eqb s EmptyString)
  | PList l => match l with [] => false | _ => true end
  | PDict d => match d with [] => false | _ => true end
  end.

Fixpoint chars (s : string) : list pyval :=
  match s with
  | EmptyString => []
  | String c t => PStr (String c EmptyString) :: chars t
  end.

(** Sequence indexing with Python's negative indices. *)
Definition seq_index {A : Type} (l : list A) (i : Z) : result A :=
  let n := Z.of_nat (List.length l) in
  let j := if i <? 0 then i + n else i in
  if (j <? 0) || (n <=? j) then Raise IndexError
  else match nth_error l (Z.to_nat j) with
       | Some a => Ok a
       | None => Raise IndexError
       end.

(** [o[k]] *)
Definition py_getitem (o k : pyval) : result pyval :=
  match o with
  | PDict d =>
      match k with
      | PStr s => match assoc_get s d with
                  | Some v => Ok v
                  | None => Raise KeyError
                  end
      | PList _ | PDict _ => Raise TypeError   (* unhashable key *)
      | _ => Raise KeyError                    (* decoded JSON has str keys only *)
      end
  | PList l =>
      match k with
      | PInt i => seq_index l i
      | PBool b => seq_index l (if b then 1 else 0)
      | _ => Raise TypeError
      end
  | PStr s =>
      match k with
      | PInt i => seq_index (chars s) i
      | PBool b => seq_index (chars s) (if b then 1 else 0)
      | _ => Raise TypeError
      end
  | _ => Raise TypeError                       (* not subscriptable *)
  end.

(** [k in o] for a string [k]. *)
Definition py_contains (k : string) (o : pyval) : result bool :=
  match o with
  | PDict d => Ok (assoc_mem k d)
  | PList l =>
      Ok (existsb (fun v => match v with
                            | PStr s => String.eqb s k
                            | _ => false
                            end) l)
  | PStr s => Ok (str_in k s)
  | _ => Raise TypeError                       (* not iterable *)
  end.

(** [o.get(k, default)] *)
Definition py_get (o : pyval) (k : string) (default : pyval) : result pyval :=
  match o with
  | PDict d => Ok (match assoc_get k d with Some v => v | None => default end)
  | _ => Raise AttributeError
  end.

(** [o.lower()] *)
Definition py_lower (o : pyval) : result string :=
  match o with
  | PStr s => Ok (str_lower s)
  | _ => Raise AttributeError
  end.

(** [len(o)] *)
Definition py_len (o : pyval) : result Z :=
  match o with
  | PList l => Ok (Z.of_nat (List.length l))
  | PDict d => Ok (Z.of_nat (List.length d))
  | PStr s => Ok (Z.of_nat (String.length s))
  | _ => Raise TypeError
  end.

(** The items a [for] loop over [o] visits. *)
Definition py_iter (o : pyval) : result (list pyval) :=
  match o with
  | PList l => Ok l
  | PDict d => Ok (map (fun kv => PStr (fst kv)) d)
  | PStr s => Ok (chars s)
  | _ => Raise TypeError
  end.

(** A [for] loop whose body appends one computed item per element. *)
Fixpoint for_each {A B : Type} (body : A -> result B) (l : list A)
  : result (list B) :=
  match l with
  | [] => Ok []
  | a :: l' =>
      b <- body a ;;
      bs <- for_each body l' ;;
      Ok (b :: bs)
  end.

(** ** Numbers

    A Python [float] is a binary64 number.  The conversions that involve
    unbounded integers are computed exactly on [Z] and rounded once, to
    nearest with ties to even, through the library's [spec_float]
    operations, as CPython does. *)

Definition finite_or_overflow (r : spec_float) : result float :=
  match r with
  | S754_infinity _ => Raise OverflowError
  | _ => Ok (SF2Prim r)
  end.

(** The binary64 number nearest to [(-1)^s * n / d], for [n >= 0], [d > 0]. *)
Definition sf_of_ratio (s : bool) (n d : Z) : spec_float :=
  match n, d with
  | Zpos pn, Zpos pd =>
      SFdiv prec emax (S754_finite s pn 0) (S754_finite false pd 0)
  | _, _ => S754_zero s
  end.

(** [float(z)] for an [int] operand of a mixed operation. *)
Definition int_to_float (z : Z) : result float :=
  finite_or_overflow (binary_normalize prec emax z 0 false).

(** [a / b] on two [int]s, [b] positive: correctly rounded true division. *)
Definition int_truediv (a b : Z) : result float :=
  finite_or_overflow (sf_of_ratio (a <? 0) (Z.abs a) b).

(** The integer nearest to [a / b] ([b > 0]), ties to the even one. *)
Definition round_half_even (a b : Z) : Z :=
  let q := a / b in
  match (2 * (a mod b)) ?= b with
  | Lt => q
  | Gt => q + 1
  | Eq => if Z.even q then q else q + 1
  end.

(** The integer nearest to [m * 2^e * 10^ndigits]. *)
Definition scaled_nearest (m e ndigits : Z) : Z :=
  if 0 <=? e then m * 2 ^ e * 10 ^ ndigits
  else round_half_even (m * 10 ^ ndigits) (2 ^ (- e)).

(** [round(x, ndigits)] on a float, for the small non-negative [ndigits]
    the views use: the exact value of [x] is rounded to [ndigits]
    decimals, ties to even, and the decimal is converted back to the
    nearest float; an infinity, a NaN or a zero is returned unchanged. *)
Definition float_round (x : float) (ndigits : Z) : result float :=
  match Prim2SF x with
  | S754_finite s m e =>
      finite_or_overflow
        (sf_of_ratio s (scaled_nearest (Zpos m) e ndigits) (10 ^ ndigits))
  | _ => Ok x
  end.

(** [v - c] for a float constant [c]. *)
Definition py_sub_float (v : pyval) (c : float) : result float :=
  match v with
  | PFloat f => Ok (f - c)%float
  | PInt z => f <- int_to_float z ;; Ok (f - c)%float
  | PBool b => f <- int_to_float (if b then 1 else 0) ;; Ok (f - c)%float
  | _ => Raise TypeError
  end.

(** [v / d] for a positive [int] constant [d] that a float holds exactly. *)
Definition py_truediv_int (v : pyval) (d : Z) : result float :=
  match v with
  | PFloat f => fd <- int_to_float d ;; Ok (f / fd)%float
  | PInt z => int_truediv z d
  | PBool b => int_truediv (if b then 1 else 0) d
  | _ => Raise TypeError
  end.

(** ** Time *)

Record datetime : Type := mk_datetime {
  ordinal : Z;        (* day number of the date *)
  hour : Z;
  minute : Z;
  second : Z;
  microsecond : Z
}.

Definition datetime_valid (t : datetime) : Prop :=
  0 <= hour t < 24 /\ 0 <= minute t < 60 /\ 0 <= second t < 60 /\
  0 <= microsecond t < 1000000.

(** The datetime that [posix_us] microseconds after the epoch is at a
    fixed offset of [utcoffset] seconds from UTC. *)
Definition datetime_fromtimestamp (posix_us utcoffset : Z) : datetime :=
  let us := posix_us + utcoffset * 1000000 in
  let s := us / 1000000 in
  {| ordinal := s / 86400 + 719163;
     hour := (s mod 86400) / 3600;
     minute := (s mod 3600) / 60;
     second := s mod 60;
     microsecond := us mod 1000000 |}.

(** ** The advice rule ([get_travel_advice]) *)

Definition delay_message : string :=
  "Consider delaying your trip due to bad weather.".
Definition good_time_message : string :=
  "Good time to start your trip!".

Definition bad_weather_conditions : list string :=
  ["rain"; "snow"; "storm"; "thunderstorm"].

(** [w['description'] if w and 'description' in w else ''] *)
Definition description_of (w : pyval) : result pyval :=
  present <- (if py_truthy w then py_contains "description" w else Ok false) ;;
  if present then py_getitem w (PStr "description") else Ok (PStr EmptyString).

(** [any(condition in desc.lower() for condition in bad_weather_conditions)] *)
Definition weather_bad (desc : pyval) : result bool :=
  d <- py_lower desc ;;
  Ok (existsb (fun condition => str_in condition d) bad_weather_conditions).

Definition get_travel_advice (weather_start weather_end : pyval)
    (current_time : datetime) : result string :=
  let current_hour := hour current_time in
  start_desc <- description_of weather_start ;;
  end_desc <- description_of weather_end ;;
  start_weather_bad <- weather_bad start_desc ;;
  end_weather_bad <- weather_bad end_desc ;;
  if start_weather_bad || end_weather_bad then Ok delay_message
  else if (23 <=? current_hour) || (current_hour <=? 4) then Ok delay_message
  else Ok good_time_message.

(** ** The outside world *)

(** How [response.json()] fails on a body it does not decode.  It turns
    the decoder's JSONDecodeError into its own and lets everything else
    through. *)
Inductive decode_failure : Type :=
| NotJson          (* the text is not JSON *)
| NestedTooDeep    (* brackets nested beyond the recursion limit *)
| IntegerTooLong.  (* an integer literal beyond the digit limit *)

Definition decode_exn (f : decode_failure) : exn :=
  match f with
  | NotJson => JSONDecodeError
  | NestedTooDeep => RecursionError
  | IntegerTooLong => ValueError
  end.

(** What [requests] hands back: a response whose body decodes to JSON
    ([Some data]) or does not ([None], and [response.json()] raises as
    [json_failure] says). *)
Record response : Type := mk_response {
  json_body : option pyval;
  json_failure : decode_failure
}.

Definition response_json (r : response) : result pyval :=
  match json_body r with
  | Some data => Ok data
  | None => Raise (decode_exn (json_failure r))
  end.

(** A stored travel query, as the collection holds it. *)
Record document : Type := mk_document {
  doc_id : nat;
  start_city : string;
  end_city : string;
  timestamp : datetime;
  route_summary : string
}.

(** The oracles.  The first argument of a call is the tick at which it is
    made, so the same request may be answered differently each time.
    [travel_form] stands for [TravelForm(request.POST)] of [travel/form.py]:
    [Some (start_city, end_city)] is the cleaned data of a valid form. *)
Record environment : Type := mk_environment {
  requests_get : nat -> string -> option response;
  requests_post : nat -> string -> pyval -> option response;
  clock : nat -> Z;                   (* POSIX time in microseconds *)
  local_utcoffset : Z;                (* the server's zone, in seconds *)
  mongo_reachable : nat -> bool;
  getenv : string -> option string;
  json_dumps : pyval -> string;
  travel_form : list (string * string) -> option (string * string)
}.

Inductive log_entry : Type :=
| MongoDB_connection_error (e : exn)
| Error_saving_to_MongoDB (e : exn)
| Error_getting_history_from_MongoDB (e : exn)
| Weather_parsing_error (e : exn)
| Route_API_error (data : pyval)
| Route_parsing_error (e : exn).

Record world : Type := mk_world {
  tick : nat;
  collection : list document;
  log : list log_entry
}.

Definition advance (w : world) : world :=
  {| tick := S (tick w); collection := collection w; log := log w |}.

(** ** The monad of the views: state and exceptions *)

Definition M (A : Type) : Type := world -> result A * world.

Definition ret {A : Type} (a : A) : M A := fun w => (Ok a, w).

Definition raise {A : Type} (e : exn) : M A := fun w => (Raise e, w).

Definition bind {A B : Type} (m : M A) (k : A -> M B) : M B :=
  fun w =>
    match m w with
    | (Ok a, w') => k a w'
    | (Raise e, w') => (Raise e, w')
    end.

Definition lift {A : Type} (r : result A) : M A := fun w => (r, w).

(** [try: body  except Exception as e: handler e] *)
Definition try_except {A : Type} (body : M A) (handler : exn -> M A) : M A :=
  fun w =>
    match body w with
    | (Ok a, w') => (Ok a, w')
    | (Raise e, w') => handler e w'
    end.

Notation "x <~ m ;; k" := (bind m (fun x => k))
  (at level 100, m at next level, right associativity).
Notation "' p <~ m ;; k" := (bind m (fun x => let 'p := x in k))
  (at level 100, p pattern, m at next level, right associativity).

Definition add_log (w : world) (entry : log_entry) : world :=
  {| tick := tick w; collection := collection w; log := log w ++ [entry] |}.

Definition print (entry : log_entry) : M unit :=
  fun w => (Ok tt, add_log w entry).

(** ** Sorting the collection, newest first *)

Definition datetime_key (t : datetime) : Z :=
  (((ordinal t * 24 + hour t) * 60 + minute t) * 60 + second t) * 1000000
  + microsecond t.

Fixpoint insert_desc (d : document) (l : list document) : list document :=
  match l with
  | [] => [d]
  | x :: l' =>
      if datetime_key (timestamp x) <? datetime_key (timestamp d)
      then d :: l
      else x :: insert_desc d l'
  end.

(** [.sort('timestamp', -1)]: newest first; records of equal timestamp
    come in no promised order. *)
Definition sort_desc (l : list document) : list document :=
  fold_right insert_desc [] l.

(** BSON keeps milliseconds. *)
Definition bson_datetime (t : datetime) : datetime :=
  {| ordinal := ordinal t; hour := hour t; minute := minute t;
     second := second t;
     microsecond := microsecond t / 1000 * 1000 |}.

Section Views.

Variable E : environment.

(** *** External calls *)

Definition http_get (url : string) : M response :=
  fun w =>
    (match requests_get E (tick w) url with
     | Some r => Ok r
     | None => Raise RequestException
     end, advance w).

Definition http_post (url : string) (body : pyval) : M response :=
  fun w =>
    (match requests_post E (tick w) url body with
     | Some r => Ok r
     | None => Raise RequestException
     end, advance w).

(** [datetime.now(tz)]; [None] is the naive local time. *)
Definition datetime_now (tz : option Z) : M datetime :=
  fun w =>
    (Ok (datetime_fromtimestamp (clock E (tick w))
           (match tz with Some off => off | None => local_utcoffset E end)),
     advance w).

(** [MongoClient('localhost', 27017)]: the client connects lazily, so the
    constructor returns whether or not a server is there; an unreachable
    server shows in the first operation. *)
Definition MongoClient : M unit :=
  fun w => (Ok tt, advance w).

(** [collection.insert_one(query_data)], giving [result.inserted_id]. *)
Definition insert_one (start_c end_c : string) (ts : datetime)
    (summary : string) : M nat :=
  fun w =>
    if mongo_reachable E (tick w) then
      let d := {| doc_id := tick w; start_city := start_c; end_city := end_c;
                  timestamp := bson_datetime ts; route_summary := summary |} in
      (Ok (tick w), {| tick := S (tick w);
                       collection := collection w ++ [d];
                       log := log w |})
    else (Raise PyMongoError, advance w).

(** [list(collection.find().sort('timestamp', -1))] *)
Definition find_sorted : M (list document) :=
  fun w =>
    (if mongo_reachable E (tick w) then Ok (sort_desc (collection w))
     else Raise PyMongoError,
     advance w).

(** *** Storage *)

Definition get_mongodb_client : M (option unit) :=
  try_except
    (client <~ MongoClient ;; ret (Some client))
    (fun e => _ <~ print (MongoDB_connection_error e) ;; ret None).

Definition save_travel_query (start_c end_c : string) (summary : string)
  : M (option nat) :=
  try_except
    (client <~ get_mongodb_client ;;
     match client with
     | Some _ =>
         ts <~ datetime_now None ;;
         inserted_id <~ insert_one start_c end_c ts summary ;;
         ret (Some inserted_id)
     | None => ret None            (* falls off the end of the function *)
     end)
    (fun e => _ <~ print (Error_saving_to_MongoDB e) ;; ret None).

(** The value is [Some queries] for a list and [None] for Python's [None]. *)
Definition get_travel_history : M (option (list document)) :=
  try_except
    (client <~ get_mongodb_client ;;
     match client with
     | Some _ =>
         queries <~ find_sorted ;;
         ret (Some queries)
     | None => ret None            (* falls off the end of the function *)
     end)
    (fun e => _ <~ print (Error_getting_history_from_MongoDB e) ;;
              ret (Some [])).

(** *** City lookup *)

Definition geo_url : string :=
  "http://geodb-free-service.wirefreethought.com/v1/geo/countries/CA/regions/BC/cities?limit=10".

Definition city_record (city_data : pyval) : result pyval :=
  name <- py_get city_data "name" (PStr EmptyString) ;;
  latitude <- py_get city_data "latitude" (PInt 0) ;;
  longitude <- py_get city_data "longitude" (PInt 0) ;;
  Ok (PDict [("name", name); ("latitude", latitude);
             ("longitude", longitude)]).

(** Lines 70-78: the loop over [data.get('data', [])]. *)
Definition parse_cities (data : pyval) : result (list pyval) :=
  entries <- py_get data "data" (PList []) ;;
  items <- py_iter entries ;;
  for_each city_record items.

Definition get_bc_cities : M (list pyval) :=
  response <~ http_get geo_url ;;
  data <~ lift (response_json response) ;;
  lift (parse_cities data).

(** The loop of [get_coordinates] over the fetched list. *)
Fixpoint find_coordinates (cities : list pyval) (city : string)
  : result (pyval * pyval) :=
  match cities with
  | [] => Ok (PNone, PNone)
  | city_data :: rest =>
      name <- py_getitem city_data (PStr "name") ;;
      lowered <- py_lower name ;;
      if String.eqb lowered (str_lower city) then
        latitude <- py_getitem city_data (PStr "latitude") ;;
        longitude <- py_getitem city_data (PStr "longitude") ;;
        Ok (latitude, longitude)
      else find_coordinates rest city
  end.

Definition get_coordinates (city : string) : M (pyval * pyval) :=
  cities <~ get_bc_cities ;;
  lift (find_coordinates cities city).

(** *** Weather lookup *)

(** How an f-string shows [os.getenv(...)]. *)
Definition fstr_env (v : option string) : string :=
  match v with Some s => s | None => "None" end.

Definition weather_url (city : string) : string :=
  ("http://api.openweathermap.org/data/2.5/weather?q=" ++ city ++ "&appid="
   ++ fstr_env (getenv E "OPENWEATHERMAP_API_KEY"))%string.

Definition weather_fallback : pyval :=
  PDict [("temperature", PStr EmptyString); ("description", PStr EmptyString)].

(** The body of the [try] of [get_weather]. *)
Definition parse_weather (data : pyval) : result pyval :=
  main <- py_getitem data (PStr "main") ;;
  temp_kelvin <- py_getitem main (PStr "temp") ;;
  temp_celsius <- py_sub_float temp_kelvin 273.15%float ;;
  weather <- py_getitem data (PStr "weather") ;;
  first <- py_getitem weather (PInt 0) ;;
  description <- py_getitem first (PStr "description") ;;
  temperature <- float_round temp_celsius 1 ;;
  Ok (PDict [("temperature", PFloat temperature);
             ("description", description)]).

Definition get_weather (city : string) : M pyval :=
  response <~ http_get (weather_url city) ;;
  data <~ lift (response_json response) ;;
  try_except
    (lift (parse_weather data))
    (fun e => _ <~ print (Weather_parsing_error e) ;; ret weather_fallback).

(** *** Route lookup *)

Definition route_url : string :=
  "https://api.openrouteservice.org/v2/directions/driving-car".

Definition zero_route : pyval :=
  PDict [("distance", PInt 0); ("duration", PInt 0); ("steps", PList [])].

(** [round(v / d, ndigits)] *)
Definition convert (v : pyval) (d ndigits : Z) : result float :=
  q <- py_truediv_int v d ;;
  float_round q ndigits.

Definition step_record (step : pyval) : result pyval :=
  instruction <- py_get step "instruction" (PStr EmptyString) ;;
  meters <- py_get step "distance" (PInt 0) ;;
  km <- convert meters 1000 2 ;;
  Ok (PDict [("instruction", instruction); ("distance", PFloat km)]).

(** ['routes' not in data or not data['routes']] *)
Definition no_routes (data : pyval) : result bool :=
  present <- py_contains "routes" data ;;
  if negb present then Ok true
  else routes <- py_getitem data (PStr "routes") ;;
       Ok (negb (py_truthy routes)).

(** Lines 189-204. *)
Definition parse_route (data : pyval) : result pyval :=
  routes <- py_getitem data (PStr "routes") ;;
  route <- py_getitem routes (PInt 0) ;;
  segments <- py_getitem route (PStr "segments") ;;
  segment <- py_getitem segments (PInt 0) ;;
  steps <- py_get segment "steps" (PList []) ;;
  meters <- py_get segment "distance" (PInt 0) ;;
  distance <- convert meters 1000 1 ;;
  seconds <- py_get segment "duration" (PInt 0) ;;
  duration <- convert seconds 60 1 ;;
  items <- py_iter steps ;;
  step_list <- for_each step_record items ;;
  Ok (PDict [("distance", PFloat distance); ("duration", PFloat duration);
             ("steps", PList step_list)]).

Definition route_body (start_lat start_lon end_lat end_lon : pyval) : pyval :=
  PDict [("coordinates", PList [PList [start_lon; start_lat];
                                PList [end_lon; end_lat]])].

Definition get_route (start_c end_c : string) : M pyval :=
  '(start_lat, start_lon) <~ get_coordinates start_c ;;
  '(end_lat, end_lon) <~ get_coordinates end_c ;;
  let body := route_body start_lat start_lon end_lat end_lon in
  try_except
    (response <~ http_post route_url body ;;
     data <~ lift (response_json response) ;;
     missing <~ lift (no_routes data) ;;
     if missing : bool then
       _ <~ print (Route_API_error data) ;; ret zero_route
     else lift (parse_route data))
    (fun e => _ <~ print (Route_parsing_error e) ;; ret zero_route).

(** *** Pages *)

Inductive request : Type :=
| GET
| POST (data : list (string * string)).

(** The context handed to the template. *)
Record context : Type := mk_context {
  ctx_weather_start : pyval;
  ctx_weather_end : pyval;
  ctx_route_details : pyval;
  ctx_travel_advice : pyval;
  ctx_cities : list pyval
}.

(** The dictionary given to [json.dumps] (lines 113-117). *)
Definition summary_dict (route_details : pyval) : result pyval :=
  distance <- (if py_truthy route_details
               then py_getitem route_details (PStr "distance")
               else Ok (PInt 0)) ;;
  duration <- (if py_truthy route_details
               then py_getitem route_details (PStr "duration")
               else Ok (PInt 0)) ;;
  steps_count <- (if py_truthy route_details
                  then steps <- py_getitem route_details (PStr "steps") ;;
                       py_len steps
                  else Ok 0) ;;
  Ok (PDict [("distance", distance); ("duration", duration);
             ("steps_count", PInt steps_count)]).

Definition pacific_utcoffset : Z := -8 * 3600.

Definition index (req : request) : M context :=
  match match req with POST data => travel_form E data | GET => None end with
  | Some (start_c, end_c) =>
      weather_start <~ get_weather start_c ;;
      weather_end <~ get_weather end_c ;;
      route_details <~ get_route start_c end_c ;;
      current_time <~ datetime_now (Some pacific_utcoffset) ;;
      travel_advice <~ lift (get_travel_advice weather_start weather_end
                               current_time) ;;
      summary <~ lift (summary_dict route_details) ;;
      _ <~ save_travel_query start_c end_c (json_dumps E summary) ;;
      cities <~ get_bc_cities ;;
      ret {| ctx_weather_start := weather_start;
             ctx_weather_end := weather_end;
             ctx_route_details := route_details;
             ctx_travel_advice := PStr travel_advice;
             ctx_cities := cities |}
  | None =>
      cities <~ get_bc_cities ;;
      ret {| ctx_weather_start := PNone;
             ctx_weather_end := PNone;
             ctx_route_details := PNone;
             ctx_travel_advice := PNone;
             ctx_cities := cities |}
  end.

Definition history : M (option (list document)) :=
  travel_queries <~ get_travel_history ;;
  ret travel_queries.

End Views.

(** * Vocabulary of the specification *)

(** ** The advice rule *)

(** [word] occurs in [desc] when letter case is ignored. *)
Definition occurs_ignoring_case (word desc : string) : Prop :=
  exists pre mid suf,
    desc = (pre ++ mid ++ suf)%string /\ str_lower mid = str_lower word.

Definition bad_description (desc : string) : Prop :=
  occurs_ignoring_case "rain" desc \/ occurs_ignoring_case "snow" desc \/
  occurs_ignoring_case "storm" desc \/
  occurs_ignoring_case "thunderstorm" desc.

Definition night_hour (h : Z) : Prop := h = 23 \/ 0 <= h <= 4.

Definition delay_condition (d1 d2 : string) (h : Z) : Prop :=
  bad_description d1 \/ bad_description d2 \/ night_hour h.

Definition weather_record (temperature : pyval) (description : string)
  : list (string * pyval) :=
  [("temperature", temperature); ("description", PStr description)].

Definition at_hour (h : Z) : datetime :=
  {| ordinal := 739924; hour := h; minute := 0; second := 0;
     microsecond := 0 |}.

(** A weather argument from which no description can be read: [None], a
    dictionary without the key, or the fallback record of the weather
    lookup. *)
Definition degraded_weather (w : pyval) : Prop :=
  w = PNone \/
  (exists d, w = PDict d /\ assoc_get "description" d = None) \/
  w = weather_fallback.


(** ** City lookup *)

(** A city of the fetched list whose name is a string. *)
Record city : Type := mk_city {
  city_name : string;
  city_latitude : pyval;
  city_longitude : pyval
}.

Definition city_dict (c : city) : pyval :=
  PDict [("name", PStr (city_name c)); ("latitude", city_latitude c);
         ("longitude", city_longitude c)].

(** Equality of two names when letter case is ignored. *)
Definition same_name (a b : string) : Prop := str_lower a = str_lower b.

(** The geo call made at tick [t] fails with [e]: the transport fails, the
    body is not decoded, or the decoded data cannot be walked. *)
Inductive geo_call_fails (E : environment) (t : nat) : exn -> Prop :=
| geo_transport_failure :
    requests_get E t geo_url = None ->
    geo_call_fails E t RequestException
| geo_body_not_decoded r :
    requests_get E t geo_url = Some r ->
    json_body r = None ->
    geo_call_fails E t (decode_exn (json_failure r))
| geo_data_malformed r data e :
    requests_get E t geo_url = Some r ->
    json_body r = Some data ->
    parse_cities data = Raise e ->
    geo_call_fails E t e.

(** ** Fixtures for the examples *)

Definition json_response (data : pyval) : option response :=
  Some {| json_body := Some data; json_failure := NotJson |}.

(** A response whose body [response.json()] does not decode. *)
Definition undecoded_response (f : decode_failure) : option response :=
  Some {| json_body := None; json_failure := f |}.

Definition fixture_cities : pyval :=
  PDict [("data", PList [
    PDict [("name", PStr "Vancouver"); ("latitude", PFloat 49.25);
           ("longitude", PFloat (-123.1))];
    PDict [("name", PStr "Victoria"); ("latitude", PFloat 48.43);
           ("longitude", PFloat (-123.37))]])].

Definition fixture_weather (kelvin : pyval) (description : string) : pyval :=
  PDict [("main", PDict [("temp", kelvin)]);
         ("weather", PList [PDict [("description", PStr description)]])].

Definition fixture_step (instruction : string) (meters : pyval) : pyval :=
  PDict [("instruction", PStr instruction); ("distance", meters)].

Definition fixture_route (meters seconds : pyval) (steps : list pyval)
  : pyval :=
  PDict [("routes", PList [PDict [("segments", PList [
    PDict [("distance", meters); ("duration", seconds);
           ("steps", PList steps)]])]])].

(** A stand-in for [json.dumps] in the examples: the keys, each integer
    value in decimal, and [?] for every other value. *)
Definition fixture_dumps (v : pyval) : string :=
  match v with
  | PDict d =>
      String.concat ","
        (map (fun kv =>
                (fst kv ++ "=" ++
                 match snd kv with
                 | PInt z => NilZero.string_of_int (Z.to_int z)
                 | _ => "?"
                 end)%string) d)
  | _ => EmptyString
  end.

Definition fixture_form (data : list (string * string))
  : option (string * string) :=
  match data with
  | [(_, start_c); (_, end_c)] => Some (start_c, end_c)
  | _ => None
  end.

(** An environment that answers every geo call with [geo], every weather
    call with [weather], every routing call with [route], and whose
    MongoDB server is reachable at the ticks [mongo] accepts; the clock
    stands at 2026-11-04 22:28:39 UTC, 14:28:39 at UTC-8. *)
Definition fixture_env (geo weather route : option response)
    (mongo : nat -> bool) : environment :=
  {| requests_get := fun _ url =>
       if String.eqb url geo_url then geo else weather;
     requests_post := fun _ _ _ => route;
     clock := fun _ => 1793831319000000;
     local_utcoffset := 0;
     mongo_reachable := mongo;
     getenv := fun _ => Some "secret";
     json_dumps := fixture_dumps;
     travel_form := fixture_form |}.

Definition empty_world : world :=
  {| tick := 0; collection := []; log := [] |}.

Definition fixture_entries : list city :=
  [ {| city_name := "Vancouver"; city_latitude := PFloat 49.25;
       city_longitude := PFloat (-123.1) |};
    {| city_name := "Victoria"; city_latitude := PFloat 48.43;
       city_longitude := PFloat (-123.37) |} ].

Definition always (_ : nat) : bool := true.
Definition never (_ : nat) : bool := false.

(** Everything answers. *)
Definition fixture_up : environment :=
  fixture_env (json_response fixture_cities)
    (json_response (fixture_weather (PFloat 283.15) "clear"))
    (json_response (fixture_route (PInt 100000) (PInt 5400)
       [fixture_step "Head north" (PInt 1234);
        fixture_step "Turn left" (PFloat 567.8);
        fixture_step "Arrive" (PInt 0)]))
    always.

(** The geo service is unreachable; the other services answer. *)
Definition fixture_geo_down : environment :=
  fixture_env None
    (json_response (fixture_weather (PFloat 283.15) "clear"))
    (json_response (fixture_route (PInt 100000) (PInt 5400) []))
    always.

Definition fixture_post : request :=
  POST [("start_city", "Vancouver"); ("end_city", "Victoria")].

(** ** Rounding to decimals *)

(** [k] is the integer nearest to [m * 2^e * 10^ndigits], the even one of
    the two when they are equally near. *)
Definition nearest_integer (m e ndigits k : Z) : Prop :=
  if 0 <=? e then k = m * 2 ^ e * 10 ^ ndigits
  else
    let gap := 2 * Z.abs (m * 10 ^ ndigits - k * 2 ^ (- e)) in
    gap <= 2 ^ (- e) /\ (gap = 2 ^ (- e) -> Z.even k = true).

(** [r] is [x] rounded to [ndigits] decimals: for a finite non-zero
    [x = (-1)^s * m * 2^e], the float nearest to [(-1)^s * k / 10^ndigits]
    for an integer [k] nearest to [|x| * 10^ndigits]; otherwise [x]. *)
Definition rounded_to (ndigits : Z) (x r : float) : Prop :=
  match Prim2SF x with
  | S754_finite s m e =>
      exists k, nearest_integer (Zpos m) e ndigits k /\
                r = SF2Prim (sf_of_ratio s k (10 ^ ndigits))
  | _ => r = x
  end.

(** What [k] right shifts leave of the mantissa [m0] in a shift record;
    [exact] says that nothing had been lost before the shifts. *)
Definition shifted (exact : Prop) (m0 k : Z) (mrs : shr_record) : Prop :=
  shr_m mrs = m0 / 2 ^ k /\
  (exact -> m0 mod 2 ^ k = 0 -> shr_r mrs = false /\ shr_s mrs = false).

(** The number a JSON value stands for in float arithmetic. *)
Definition number_value (v : pyval) (x : float) : Prop :=
  v = PFloat x \/ exists z, v = PInt z /\ int_to_float z = Ok x.

(** ** Weather fixtures *)

(** The weather service is unreachable. *)
Definition fixture_weather_down : environment :=
  fixture_env (json_response fixture_cities) None
    (json_response (fixture_route (PInt 100000) (PInt 5400) []))
    always.

(** The weather service answers with a page that is not JSON. *)
Definition fixture_weather_not_json : environment :=
  fixture_env (json_response fixture_cities)
    (undecoded_response NotJson)
    (json_response (fixture_route (PInt 100000) (PInt 5400) []))
    always.

(** The weather service reports the freezing point. *)
Definition fixture_freezing : environment :=
  fixture_env (json_response fixture_cities)
    (json_response (fixture_weather (PFloat 273.15) "clear"))
    (json_response (fixture_route (PInt 100000) (PInt 5400) []))
    always.

(** ** Route lookup *)

(** [q] is [v / d] for a JSON number [v] and a positive integer [d]: float
    division when [v] is a float, correctly rounded true division when it
    is an integer. *)
Inductive quotient (d : Z) : pyval -> float -> Prop :=
| quotient_of_float f fd :
    int_to_float d = Ok fd -> quotient d (PFloat f) (f / fd)%float
| quotient_of_int z q :
    int_truediv z d = Ok q -> quotient d (PInt z) q.

(** A step of the response that carries an instruction and a distance. *)
Definition step_has_distance (step : pyval) : Prop :=
  exists sd instruction meters q,
    step = PDict sd /\
    assoc_get "instruction" sd = Some instruction /\
    assoc_get "distance" sd = Some meters /\
    quotient 1000 meters q.

(** A listed step keeps the instruction and carries the step's own
    distance in kilometres, rounded to two decimals. *)
Definition step_in_km (step out : pyval) : Prop :=
  exists sd instruction meters q km,
    step = PDict sd /\
    assoc_get "instruction" sd = Some instruction /\
    assoc_get "distance" sd = Some meters /\
    quotient 1000 meters q /\
    rounded_to 2 q km /\
    out = PDict [("instruction", instruction); ("distance", PFloat km)].

(** The decoded routing reply has no route data: the key is missing or
    its value is empty. *)
Definition routes_missing_or_empty (data : pyval) : Prop :=
  exists d, data = PDict d /\
    (assoc_get "routes" d = None \/
     exists v, assoc_get "routes" d = Some v /\ py_truthy v = false).

(** The routing call made at tick [t] with [body] gives no route: the
    transport fails, the body is not JSON, the route data is missing or
    empty, or walking the data raises. *)
Inductive route_lookup_fails (E : environment) (t : nat) (body : pyval)
  : Prop :=
| routing_transport_failure :
    requests_post E t route_url body = None ->
    route_lookup_fails E t body
| routing_body_not_json r :
    requests_post E t route_url body = Some r ->
    json_body r = None ->
    route_lookup_fails E t body
| routing_no_route_data r data :
    requests_post E t route_url body = Some r ->
    json_body r = Some data ->
    routes_missing_or_empty data ->
    route_lookup_fails E t body
| routing_data_malformed r data e :
    requests_post E t route_url body = Some r ->
    json_body r = Some data ->
    no_routes data = Raise e \/ parse_route data = Raise e ->
    route_lookup_fails E t body.

(** The route the fixture services give for 12345 m and 125 s. *)
Definition fixture_short_route : environment :=
  fixture_env (json_response fixture_cities)
    (json_response (fixture_weather (PFloat 283.15) "clear"))
    (json_response (fixture_route (PInt 12345) (PInt 125)
       [fixture_step "Head north" (PInt 1234);
        fixture_step "Arrive" (PFloat 567.8)]))
    always.

(** The routing service is unreachable. *)
Definition fixture_route_down : environment :=
  fixture_env (json_response fixture_cities)
    (json_response (fixture_weather (PFloat 283.15) "clear"))
    None always.

Definition fixture_short_steps : list pyval :=
  [fixture_step "Head north" (PInt 1234);
   fixture_step "Arrive" (PFloat 567.8)].

Definition fixture_short_steps_listed : list pyval :=
  [PDict [("instruction", PStr "Head north"); ("distance", PFloat 1.23)];
   PDict [("instruction", PStr "Arrive"); ("distance", PFloat 0.57)]].

(** The world after the two geo calls and the routing call. *)
Definition after_route_lookup : world :=
  advance (advance (advance empty_world)).

(** ** Query store *)

(** [a] is listed before [b]: its timestamp is not older. *)
Definition not_older (a b : document) : Prop :=
  datetime_key (timestamp b) <= datetime_key (timestamp a).

Definition fixture_document (id : nat) (h : Z) : document :=
  {| doc_id := id; start_city := "Vancouver"; end_city := "Victoria";
     timestamp := at_hour h;
     route_summary := "distance=?,duration=?,steps_count=3" |}.

(** A world with three stored queries, made at 9, 17 and 12 o'clock. *)
Definition fixture_stored : world :=
  {| tick := 7;
     collection := [fixture_document 1 9; fixture_document 3 17;
                    fixture_document 5 12];
     log := [] |}.

(** The MongoDB server is unreachable. *)
Definition fixture_mongo_down : environment :=
  fixture_env (json_response fixture_cities)
    (json_response (fixture_weather (PFloat 283.15) "clear"))
    (json_response (fixture_route (PInt 100000) (PInt 5400) []))
    never.

(** ** Form page *)

Definition is_number (v : pyval) : Prop :=
  match v with
  | PInt _ | PFloat _ => True
  | _ => False
  end.

(** The summary of a route: its distance, its duration and the number of
    its steps. *)
Definition route_summary_of (distance duration : pyval) (steps : list pyval)
  : pyval :=
  PDict [("distance", distance); ("duration", duration);
         ("steps_count", PInt (Z.of_nat (List.length steps)))].

(** * Further vocabulary *)

(** ** Query store *)

(** The record a successful [save_travel_query] adds. *)
Definition saved_as (doc : document) (id : nat) (start_c end_c : string)
    (summary : string) : Prop :=
  doc_id doc = id /\ start_city doc = start_c /\ end_city doc = end_c /\
  route_summary doc = summary.

(** ** City lookup *)

(** A record as [get_bc_cities] builds it: exactly the three keys. *)
Definition city_shaped (v : pyval) : Prop :=
  exists name latitude longitude,
    v = PDict [("name", name); ("latitude", latitude);
               ("longitude", longitude)].

(** Decoded geo data the loop of [get_bc_cities] can walk: a dictionary
    whose ["data"] entry, an empty list when absent, iterates over
    dictionaries only. *)
Definition geo_data_walkable (data : pyval) (n : nat) : Prop :=
  exists d entries,
    data = PDict d /\
    py_iter (match assoc_get "data" d with
             | Some v => v
             | None => PList []
             end) = Ok (map PDict entries) /\
    List.length entries = n.

(** ** Weather lookup and advice *)

(** A record as the [try] of [get_weather] builds it. *)
Definition weather_shaped (v : pyval) : Prop :=
  exists temperature description,
    v = PDict [("temperature", PFloat temperature);
               ("description", description)].

(** The weather service answers with an empty [weather] list. *)
Definition fixture_weather_empty_list : environment :=
  fixture_env (json_response fixture_cities)
    (json_response
       (PDict [("main", PDict [("temp", PFloat 283.15)]);
               ("weather", PList [])]))
    (json_response (fixture_route (PInt 100000) (PInt 5400) []))
    always.

(** ** Route lookup *)

(** The routing service answers with a route whose only segment is an
    empty object. *)
Definition fixture_bare_segment : environment :=
  fixture_env (json_response fixture_cities)
    (json_response (fixture_weather (PFloat 283.15) "clear"))
    (json_response
       (PDict [("routes", PList [PDict [("segments", PList [PDict []])]])]))
    always.

(** ** Form page *)

(** The request carries no valid submission: it is not a POST, or its
    form does not validate. *)
Definition no_submission (E : environment) (req : request) : Prop :=
  match req with POST data => travel_form E data | GET => None end = None.

(** The exceptions of the lookups that no [try] of the views stands
    around. *)
Definition page_exception (e : exn) : Prop :=
  e = RequestException \/
  e = JSONDecodeError \/ e = RecursionError \/ e = ValueError \/
  e = AttributeError \/ e = TypeError.

(** A weather record whose description is [v]. *)
Definition described_by (v weather : pyval) : Prop :=
  exists temperature,
    weather = PDict [("temperature", temperature); ("description", v)].

Definition not_a_string (v : pyval) : Prop := forall s, v <> PStr s.

(** The weather service answers with a description that is JSON null. *)
Definition fixture_null_description : environment :=
  fixture_env (json_response fixture_cities)
    (json_response
       (PDict [("main", PDict [("temp", PFloat 283.15)]);
               ("weather", PList [PDict [("description", PNone)]])]))
    (json_response (fixture_route (PInt 100000) (PInt 5400) []))
    always.

(** The geo service answers the calls made before the ninth external call
    of a run and is unreachable from then on; everything else answers as
    in [fixture_up]. *)
Definition fixture_geo_fades : environment :=
  {| requests_get := fun t url =>
       if String.eqb url geo_url
       then (if Nat.ltb t 9 then json_response fixture_cities else None)
       else json_response (fixture_weather (PFloat 283.15) "clear");
     requests_post := requests_post fixture_up;
     clock := clock fixture_up;
     local_utcoffset := local_utcoffset fixture_up;
     mongo_reachable := always;
     getenv := getenv fixture_up;
     json_dumps := json_dumps fixture_up;
     travel_form := travel_form fixture_up |}.

(** The geo service answers with a body nested deeper than the decoder
    goes. *)
Definition fixture_geo_too_deep : environment :=
  fixture_env (undecoded_response NestedTooDeep)
    (json_response (fixture_weather (PFloat 283.15) "clear"))
    (json_response (fixture_route (PInt 100000) (PInt 5400) []))
    always.
(** * Properties *)

(** ** Strings: substring search and lower-casing *)

Lemma prefix_iff (a b : string) :
  String.prefix a b = true <-> exists suf, b = (a ++ suf)%string.
Proof.
  revert b; induction a as [|c a IH]; intros [|c' b]; simpl.
  - split; [intros _; exists EmptyString; reflexivity | reflexivity].
  - split; [intros _; exists (String c' b); reflexivity | reflexivity].
  - split; [discriminate | intros [suf H]; discriminate].
  - destruct (ascii_dec c c') as [->|Hne].
    + rewrite IH. split; intros [suf H]; exists suf.
      * now rewrite H.
      * now inversion H.
    + split; [discriminate | intros [suf H]; inversion H; congruence].
Qed.

Lemma str_in_iff (needle hay : string) :
  str_in needle hay = true <->
  exists pre suf, hay = (pre ++ needle ++ suf)%string.
Proof.
  induction hay as [|c hay IH]; cbn [str_in].
  - rewrite orb_false_r, prefix_iff. split.
    + intros [suf H]. exists EmptyString, suf. exact H.
    + intros [pre [suf H]]. destruct pre; [now exists suf | discriminate].
  - rewrite orb_true_iff, prefix_iff, IH. split.
    + intros [[suf H] | [pre [suf H]]].
      * exists EmptyString, suf. exact H.
      * exists (String c pre), suf. simpl. now rewrite H.
    + intros [pre [suf H]]. destruct pre as [|c' pre]; simpl in H.
      * left. now exists suf.
      * right. inversion H. now exists pre, suf.
Qed.

Lemma str_lower_app (a b : string) :
  str_lower (a ++ b) = (str_lower a ++ str_lower b)%string.
Proof. induction a; simpl; congruence. Qed.

Lemma str_lower_split (s a b : string) :
  str_lower s = (a ++ b)%string ->
  exists s1 s2, s = (s1 ++ s2)%string /\ str_lower s1 = a /\ str_lower s2 = b.
Proof.
  revert s; induction a as [|c a IH]; intros s H; simpl in H.
  - exists EmptyString, s. auto.
  - destruct s as [|c' s]; simpl in H; [discriminate|].
    inversion H as [[Hc Ht]].
    destruct (IH s Ht) as (s1 & s2 & -> & H1 & H2).
    exists (String c' s1), s2. simpl. rewrite H1. auto.
Qed.

(** ** The advice rule *)

Lemma lowered_contains_iff (word desc : string) :
  str_in (str_lower word) (str_lower desc) = true <->
  occurs_ignoring_case word desc.
Proof.
  rewrite str_in_iff. split.
  - intros (p & s & H).
    apply str_lower_split in H as (pre & rest & -> & _ & H).
    apply str_lower_split in H as (mid & suf & -> & Hm & _).
    now exists pre, mid, suf.
  - intros (pre & mid & suf & -> & Hm).
    exists (str_lower pre), (str_lower suf).
    now rewrite !str_lower_app, Hm.
Qed.

Lemma weather_bad_str (desc : string) :
  exists b, weather_bad (PStr desc) = Ok b /\
            (b = true <-> bad_description desc).
Proof.
  eexists; split; [reflexivity|].
  unfold bad_weather_conditions, bad_description; cbn [existsb].
  rewrite orb_false_r, !orb_true_iff.
  rewrite <- !lowered_contains_iff. tauto.
Qed.

Lemma description_of_dict (d : list (string * pyval)) (v : pyval) :
  assoc_get "description" d = Some v ->
  description_of (PDict d) = Ok v.
Proof.
  intros H. destruct d as [|kv d]; [discriminate|].
  unfold description_of, py_truthy, py_contains, assoc_mem, py_getitem.
  now rewrite H.
Qed.

Lemma night_hour_test (h : Z) :
  0 <= h < 24 ->
  ((23 <=? h) || (h <=? 4) = true <-> night_hour h).
Proof.
  intros Hh. unfold night_hour.
  rewrite orb_true_iff, Z.leb_le, Z.leb_le. lia.
Qed.

Lemma messages_differ : delay_message <> good_time_message.
Proof. discriminate. Qed.

(** C1.  For two weather records whose descriptions are the strings [d1]
    and [d2] and a time of day, the advice rule answers the delay message
    exactly when one description contains rain, snow, storm or
    thunderstorm (letter case ignored) or the hour is 23 or in 0..4, and
    the good-time message exactly in every other case. *)
Theorem advice_rule (ws we : list (string * pyval)) (d1 d2 : string)
    (t : datetime) :
  assoc_get "description" ws = Some (PStr d1) ->
  assoc_get "description" we = Some (PStr d2) ->
  0 <= hour t < 24 ->
  (get_travel_advice (PDict ws) (PDict we) t = Ok delay_message
   <-> delay_condition d1 d2 (hour t)) /\
  (get_travel_advice (PDict ws) (PDict we) t = Ok good_time_message
   <-> ~ delay_condition d1 d2 (hour t)).
Proof.
  intros H1 H2 Hh. unfold delay_condition, get_travel_advice.
  rewrite (description_of_dict _ _ H1), (description_of_dict _ _ H2).
  cbn [rbind].
  destruct (weather_bad_str d1) as (b1 & -> & Hb1).
  destruct (weather_bad_str d2) as (b2 & -> & Hb2).
  cbn [rbind].
  pose proof (night_hour_test _ Hh) as Hn.
  pose proof messages_differ as Hm.
  destruct b1, b2; cbn [orb];
    try (split; split; [tauto | reflexivity | congruence | tauto]).
  destruct ((23 <=? hour t) || (hour t <=? 4)).
  - split; split; [tauto | reflexivity | congruence | tauto].
  - assert (~ bad_description d1) by (rewrite <- Hb1; discriminate).
    assert (~ bad_description d2) by (rewrite <- Hb2; discriminate).
    assert (~ night_hour (hour t)) by (rewrite <- Hn; discriminate).
    split; split; [congruence | tauto | tauto | reflexivity].
Qed.

Lemma not_bad_clear : ~ bad_description "clear".
Proof.
  unfold bad_description. rewrite <- !lowered_contains_iff.
  vm_compute. intuition discriminate.
Qed.

(** The three sample points of the rule: light rain at 10 and clear at 2
    give the delay message, clear at 10 gives the good-time message. *)
Lemma advice_rule_witness :
  get_travel_advice (PDict (weather_record (PFloat 7.5) "light rain"))
    (PDict (weather_record (PFloat 9.1) "clear")) (at_hour 10)
  = Ok delay_message /\
  get_travel_advice (PDict (weather_record (PFloat 7.5) "clear"))
    (PDict (weather_record (PFloat 9.1) "clear")) (at_hour 2)
  = Ok delay_message /\
  get_travel_advice (PDict (weather_record (PFloat 7.5) "clear"))
    (PDict (weather_record (PFloat 9.1) "clear")) (at_hour 10)
  = Ok good_time_message.
Proof.
  split; [|split].
  - apply (advice_rule _ _ "light rain" "clear" (at_hour 10));
      [reflexivity | reflexivity | simpl; lia |].
    left. left. exists "light ", "rain", EmptyString. split; reflexivity.
  - apply (advice_rule _ _ "clear" "clear" (at_hour 2));
      [reflexivity | reflexivity | simpl; lia |].
    right. right. right. simpl. lia.
  - apply (advice_rule _ _ "clear" "clear" (at_hour 10));
      [reflexivity | reflexivity | simpl; lia |].
    intros [H | [H | [H | H]]];
      [exact (not_bad_clear H) | exact (not_bad_clear H)
      | discriminate H | simpl in H; lia].
Defined.

Lemma description_of_degraded (w : pyval) :
  degraded_weather w -> description_of w = Ok (PStr EmptyString).
Proof.
  intros [-> | [(d & -> & H) | ->]]; [reflexivity | | reflexivity].
  destruct d as [|kv d]; [reflexivity|].
  unfold description_of, py_truthy, py_contains, assoc_mem.
  now rewrite H.
Qed.

(** C10.  With two degraded weather arguments the advice rule reads both
    descriptions as the empty string, which matches no bad-weather word;
    it returns a message at every time, and the good-time message at
    every hour from 5 to 22. *)
Theorem advice_on_degraded_weather (ws we : pyval) (t : datetime) :
  degraded_weather ws -> degraded_weather we ->
  description_of ws = Ok (PStr EmptyString) /\
  description_of we = Ok (PStr EmptyString) /\
  weather_bad (PStr EmptyString) = Ok false /\
  (exists msg, get_travel_advice ws we t = Ok msg) /\
  (5 <= hour t <= 22 -> get_travel_advice ws we t = Ok good_time_message).
Proof.
  intros Hs He.
  pose proof (description_of_degraded _ Hs) as Ds.
  pose proof (description_of_degraded _ He) as De.
  repeat split; auto; unfold get_travel_advice; rewrite Ds, De;
    cbn [rbind];
    change (weather_bad (PStr EmptyString)) with (@Ok bool false); cbn [rbind orb].
  - destruct ((23 <=? hour t) || (hour t <=? 4)); eexists; reflexivity.
  - intros Hh.
    replace (23 <=? hour t) with false by (symmetry; apply Z.leb_gt; lia).
    replace (hour t <=? 4) with false by (symmetry; apply Z.leb_gt; lia).
    reflexivity.
Qed.

Lemma advice_on_degraded_weather_witness :
  get_travel_advice PNone weather_fallback (at_hour 14)
  = Ok good_time_message.
Proof.
  apply (advice_on_degraded_weather PNone weather_fallback (at_hour 14));
    [left; reflexivity | right; right; reflexivity | simpl; lia].
Defined.

(** ** Running the views: unfolding lemmas *)

Lemma bind_ok {A B : Type} (m : M A) (k : A -> M B) (w w' : world) (a : A) :
  m w = (Ok a, w') -> bind m k w = k a w'.
Proof. intros H. unfold bind. now rewrite H. Qed.

Lemma bind_raise {A B : Type} (m : M A) (k : A -> M B) (w w' : world)
    (e : exn) :
  m w = (Raise e, w') -> bind m k w = (Raise e, w').
Proof. intros H. unfold bind. now rewrite H. Qed.

Lemma get_bc_cities_eq (E : environment) (w : world) :
  get_bc_cities E w =
  (match requests_get E (tick w) geo_url with
   | Some r => data <- response_json r ;; parse_cities data
   | None => Raise RequestException
   end, advance w).
Proof.
  unfold get_bc_cities, bind, http_get, lift.
  destruct (requests_get E (tick w) geo_url) as [r|]; [|reflexivity].
  destruct (response_json r); reflexivity.
Qed.

Lemma get_coordinates_eq (E : environment) (city : string) (w : world) :
  get_coordinates E city w =
  match get_bc_cities E w with
  | (Ok cities, w') => (find_coordinates cities city, w')
  | (Raise e, w') => (Raise e, w')
  end.
Proof. reflexivity. Qed.

Lemma geo_call_fails_raises (E : environment) (w : world) (e : exn) :
  geo_call_fails E (tick w) e ->
  get_bc_cities E w = (Raise e, advance w).
Proof.
  intros H. rewrite get_bc_cities_eq.
  destruct H as [H | r H Hj | r data e H Hj Hp]; rewrite H;
    unfold response_json; try rewrite Hj; cbn [rbind]; congruence.
Qed.

(** ** Coordinate resolution *)

Lemma find_coordinates_no_match (entries : list city) (name : string) :
  Forall (fun c => ~ same_name (city_name c) name) entries ->
  find_coordinates (map city_dict entries) name = Ok (PNone, PNone).
Proof.
  induction 1 as [|c entries Hc _ IH]; [reflexivity|].
  cbn [map find_coordinates]. unfold city_dict at 1. cbn.
  destruct (String.eqb_spec (str_lower (city_name c)) (str_lower name))
    as [Heq|_]; [contradiction | exact IH].
Qed.

Lemma find_coordinates_first_match (pre post : list city) (c : city)
    (name : string) :
  Forall (fun c => ~ same_name (city_name c) name) pre ->
  same_name (city_name c) name ->
  find_coordinates (map city_dict (pre ++ c :: post)%list) name
  = Ok (city_latitude c, city_longitude c).
Proof.
  intros Hpre Hc. induction Hpre as [|x pre Hx _ IH].
  - cbn. unfold same_name in Hc. rewrite Hc, String.eqb_refl. reflexivity.
  - cbn. destruct (String.eqb_spec (str_lower (city_name x)) (str_lower name))
      as [Heq|_]; [contradiction | exact IH].
Qed.

Lemma first_match_split (entries : list city) (name : string) :
  Exists (fun c => same_name (city_name c) name) entries ->
  exists pre c post,
    entries = (pre ++ c :: post)%list /\
    Forall (fun c => ~ same_name (city_name c) name) pre /\
    same_name (city_name c) name.
Proof.
  induction entries as [|x entries IH]; intros H; [inversion H|].
  destruct (string_dec (str_lower (city_name x)) (str_lower name)) as [Hx|Hx].
  - exists [], x, entries. auto.
  - assert (Exists (fun c => same_name (city_name c) name) entries) as H'
      by (inversion H; [contradiction | assumption]).
    destruct (IH H') as (pre & c & post & -> & Hpre & Hc).
    exists (x :: pre), c, post. auto.
Qed.

(** C4.  When the city list has been fetched and its names are strings,
    coordinate resolution compares names with letter case ignored: a name
    that no entry matches resolves to the pair (None, None), and a name
    that some entry matches resolves to the latitude and longitude of a
    matching entry, the first one of the list. *)
Theorem get_coordinates_spec (E : environment) (w w' : world)
    (entries : list city) (name : string) :
  get_bc_cities E w = (Ok (map city_dict entries), w') ->
  (Forall (fun c => ~ same_name (city_name c) name) entries ->
   get_coordinates E name w = (Ok (PNone, PNone), w')) /\
  (Exists (fun c => same_name (city_name c) name) entries ->
   exists pre c post,
     entries = (pre ++ c :: post)%list /\
     Forall (fun c => ~ same_name (city_name c) name) pre /\
     same_name (city_name c) name /\
     get_coordinates E name w
     = (Ok (city_latitude c, city_longitude c), w')).
Proof.
  intros Hfetch. rewrite get_coordinates_eq, Hfetch. split.
  - intros Hno. now rewrite find_coordinates_no_match.
  - intros Hsome.
    destruct (first_match_split _ _ Hsome) as (pre & c & post & -> & Hp & Hc).
    exists pre, c, post. repeat split; auto.
    now rewrite find_coordinates_first_match.
Qed.

Lemma get_coordinates_spec_witness :
  get_coordinates fixture_up "Atlantis" empty_world
  = (Ok (PNone, PNone), advance empty_world) /\
  exists pre c post,
    fixture_entries = (pre ++ c :: post)%list /\
    Forall (fun c => ~ same_name (city_name c) "VICTORIA") pre /\
    same_name (city_name c) "VICTORIA" /\
    get_coordinates fixture_up "VICTORIA" empty_world
    = (Ok (city_latitude c, city_longitude c), advance empty_world).
Proof.
  split.
  - apply (get_coordinates_spec fixture_up empty_world (advance empty_world)
             fixture_entries "Atlantis"); [reflexivity|].
    repeat constructor; discriminate.
  - apply (get_coordinates_spec fixture_up empty_world (advance empty_world)
             fixture_entries "VICTORIA"); [reflexivity|].
    right. left. reflexivity.
Defined.

(** ** The weather lookup *)

Lemma seq_index_head {A : Type} (x : A) (l : list A) :
  seq_index (x :: l) 0 = Ok x.
Proof.
  unfold seq_index. cbn [Z.ltb Z.compare orb List.length].
  replace (Z.of_nat (S (List.length l)) <=? 0) with false
    by (symmetry; apply Z.leb_gt; lia).
  reflexivity.
Qed.


Lemma get_weather_eq (E : environment) (name : string) (w : world) :
  get_weather E name w =
  match requests_get E (tick w) (weather_url E name) with
  | None => (Raise RequestException, advance w)
  | Some r =>
      match response_json r with
      | Raise e => (Raise e, advance w)
      | Ok data =>
          match parse_weather data with
          | Ok v => (Ok v, advance w)
          | Raise e =>
              (Ok weather_fallback,
               add_log (advance w) (Weather_parsing_error e))
          end
      end
  end.
Proof.
  unfold get_weather, bind, http_get, lift, try_except.
  destruct (requests_get E (tick w) (weather_url E name)) as [r|];
    [|reflexivity].
  destruct (response_json r) as [data|e]; [|reflexivity].
  destruct (parse_weather data); reflexivity.
Qed.

Lemma get_weather_tick (E : environment) (name : string) (w : world) :
  tick (snd (get_weather E name w)) = S (tick w).
Proof.
  rewrite get_weather_eq.
  destruct (requests_get E (tick w) (weather_url E name)) as [r|];
    [|reflexivity].
  destruct (response_json r) as [data|e]; [|reflexivity].
  destruct (parse_weather data); reflexivity.
Qed.

(** ** The geo lookup has no guard *)

Lemma get_coordinates_geo_failure (E : environment) (w : world) (e : exn)
    (name : string) :
  geo_call_fails E (tick w) e ->
  get_coordinates E name w = (Raise e, advance w).
Proof.
  intros H. rewrite get_coordinates_eq.
  now rewrite (geo_call_fails_raises _ _ _ H).
Qed.

Lemma get_route_geo_failure (E : environment) (w : world) (e : exn)
    (start_c end_c : string) :
  geo_call_fails E (tick w) e ->
  get_route E start_c end_c w = (Raise e, advance w).
Proof.
  intros H. unfold get_route.
  apply bind_raise. now apply get_coordinates_geo_failure.
Qed.

(** C9.  A transport or parsing failure of the geo call is not caught:
    the city lookup raises it, and so do coordinate resolution, the route
    lookup and the form page that call it; a valid submission is aborted
    too when the geo service keeps failing. *)
Theorem geo_failure_propagates (E : environment) (w : world) (e : exn) :
  geo_call_fails E (tick w) e ->
  get_bc_cities E w = (Raise e, advance w) /\
  (forall name, get_coordinates E name w = (Raise e, advance w)) /\
  (forall start_c end_c,
     get_route E start_c end_c w = (Raise e, advance w)) /\
  (forall req,
     match req with POST data => travel_form E data | GET => None end = None ->
     index E req w = (Raise e, advance w)) /\
  (forall data start_c end_c,
     travel_form E data = Some (start_c, end_c) ->
     (forall t, (tick w < t)%nat -> exists e', geo_call_fails E t e') ->
     exists e' w', index E (POST data) w = (Raise e', w')).
Proof.
  intros H. split; [|split; [|split; [|split]]].
  - now apply geo_call_fails_raises.
  - intros name. now apply get_coordinates_geo_failure.
  - intros s d. now apply get_route_geo_failure.
  - intros req Hreq. unfold index. rewrite Hreq.
    apply bind_raise. now apply geo_call_fails_raises.
  - intros data s d Hform Hdown. unfold index. rewrite Hform.
    pose proof (get_weather_tick E s w) as T1.
    destruct (get_weather E s w) as [[ws|e1] w1] eqn:W1;
      [rewrite (bind_ok _ _ _ _ _ W1) | rewrite (bind_raise _ _ _ _ _ W1); eauto].
    pose proof (get_weather_tick E d w1) as T2.
    destruct (get_weather E d w1) as [[we|e2] w2] eqn:W2;
      [rewrite (bind_ok _ _ _ _ _ W2) | rewrite (bind_raise _ _ _ _ _ W2); eauto].
    cbn [snd] in T1, T2.
    destruct (Hdown (tick w2)) as [e' He']; [lia|].
    rewrite (bind_raise _ _ _ _ _ (get_route_geo_failure E w2 e' s d He')).
    eauto.
Qed.

Lemma geo_failure_propagates_witness :
  get_bc_cities fixture_geo_down empty_world
  = (Raise RequestException, advance empty_world) /\
  index fixture_geo_down GET empty_world
  = (Raise RequestException, advance empty_world) /\
  exists e' w',
    index fixture_geo_down fixture_post empty_world = (Raise e', w').
Proof.
  assert (forall t, geo_call_fails fixture_geo_down t RequestException) as D
    by (intros t; constructor; reflexivity).
  destruct (geo_failure_propagates fixture_geo_down empty_world
              RequestException (D _)) as (Hc & _ & _ & Hget & Hpost).
  split; [exact Hc | split].
  - apply Hget. reflexivity.
  - apply (Hpost _ "Vancouver" "Victoria"); [reflexivity|].
    intros t _. exists RequestException. apply D.
Defined.

(** ** Binary64 rounding never overflows on the way back from decimals *)

Lemma digits2_pos_size (p : positive) : digits2_pos p = Pos.size p.
Proof. induction p; simpl; congruence. Qed.

Lemma Zdigits2_bounds (p : positive) :
  2 ^ (Zdigits2 (Zpos p) - 1) <= Zpos p < 2 ^ Zdigits2 (Zpos p).
Proof.
  cbn [Zdigits2]. rewrite digits2_pos_size.
  pose proof (Pos.size_gt p) as Hgt. pose proof (Pos.size_le p) as Hle.
  apply Pos2Z.pos_lt_pos in Hgt. apply Pos2Z.pos_le_pos in Hle.
  rewrite Pos2Z.inj_pow in Hgt, Hle.
  split; [|exact Hgt].
  assert (0 < Zpos (Pos.size p)) by lia.
  replace (Zpos (Pos.size p)) with (Z.succ (Zpos (Pos.size p) - 1)) in Hle by lia.
  rewrite Z.pow_succ_r in Hle by lia. lia.
Qed.

Lemma Zdigits2_nonneg (m : Z) : 0 <= Zdigits2 m.
Proof. destruct m; cbn; lia. Qed.

Lemma Zdigits2_le (m d : Z) :
  0 <= m -> 0 <= d -> m < 2 ^ d -> Zdigits2 m <= d.
Proof.
  intros Hm Hd Hlt. destruct m as [|p|p]; [exact Hd | | lia].
  pose proof (Zdigits2_bounds p) as [Hlo _].
  destruct (Z_le_gt_dec (Zdigits2 (Zpos p)) d) as [|Hgt]; [assumption|].
  exfalso.
  assert (2 ^ d <= 2 ^ (Zdigits2 (Zpos p) - 1)) by (apply Z.pow_le_mono_r; lia).
  lia.
Qed.

Lemma Zdigits2_unique (m d : Z) :
  0 < m -> 2 ^ (d - 1) <= m < 2 ^ d -> Zdigits2 m = d.
Proof.
  intros Hm [Hlo Hhi]. destruct m as [|p|p]; try lia.
  pose proof (Zdigits2_bounds p) as [Hlo' Hhi'].
  pose proof (Zdigits2_nonneg (Zpos p)) as Hn.
  assert (0 <= d).
  { destruct (Z_lt_le_dec d 0) as [Hd|]; [|assumption].
    rewrite (Z.pow_neg_r 2 d Hd) in Hhi. lia. }
  destruct (Z.lt_trichotomy (Zdigits2 (Zpos p)) d) as [Hc | [Hc | Hc]];
    [exfalso | assumption | exfalso].
  - assert (2 ^ Zdigits2 (Zpos p) <= 2 ^ (d - 1)) by (apply Z.pow_le_mono_r; lia).
    lia.
  - assert (2 ^ d <= 2 ^ (Zdigits2 (Zpos p) - 1)) by (apply Z.pow_le_mono_r; lia).
    lia.
Qed.

Lemma iter_pos_invariant {A : Type} (f : A -> A) (R : Z -> A -> Prop) :
  (forall k x, 0 <= k -> R k x -> R (k + 1) (f x)) ->
  forall p k x, 0 <= k -> R k x -> R (k + Zpos p) (iter_pos f p x).
Proof.
  intros Hstep. induction p as [p IH|p IH|]; intros k x Hk HR; cbn [iter_pos].
  - replace (k + Zpos p~1) with (k + 1 + Zpos p + Zpos p) by lia.
    apply IH; [lia|]. apply IH; [lia|]. now apply Hstep.
  - replace (k + Zpos p~0) with (k + Zpos p + Zpos p) by lia.
    apply IH; [lia|]. now apply IH.
  - now apply Hstep.
Qed.

Lemma shr_1_m (mrs : shr_record) :
  0 <= shr_m mrs -> shr_m (shr_1 mrs) = shr_m mrs / 2.
Proof.
  destruct mrs as [m r s]. cbn [shr_m]. intros Hm.
  rewrite <- Z.div2_div.
  destruct m as [|[p|p|]|p]; try reflexivity. lia.
Qed.

Lemma shr_1_even (mrs : shr_record) :
  0 <= shr_m mrs -> shr_m mrs mod 2 = 0 ->
  shr_r (shr_1 mrs) = false /\
  shr_s (shr_1 mrs) = (shr_r mrs || shr_s mrs)%bool.
Proof.
  destruct mrs as [m r s]. cbn [shr_m shr_r shr_s]. intros Hm He.
  destruct m as [|[p|p|]|p]; try (split; reflexivity).
  - exfalso. rewrite Pos2Z.inj_xI in He.
    replace (2 * Zpos p + 1) with (1 + Zpos p * 2) in He by lia.
    rewrite Z.mod_add in He by lia. discriminate.
  - discriminate.
  - lia.
Qed.

Lemma shifted_step (exact : Prop) (m0 k : Z) (mrs : shr_record) :
  0 <= m0 -> 0 <= k ->
  shifted exact m0 k mrs -> shifted exact m0 (k + 1) (shr_1 mrs).
Proof.
  intros Hm Hk [Hq Hex].
  assert (0 < 2 ^ k) as Hp by (apply Z.pow_pos_nonneg; lia).
  assert (0 <= shr_m mrs) as Hnn by (rewrite Hq; apply Z.div_pos; lia).
  assert (2 ^ (k + 1) = 2 ^ k * 2) as Hpow by (rewrite Z.pow_add_r; lia).
  split.
  - rewrite shr_1_m, Hq, Hpow by assumption.
    rewrite Z.div_div; lia.
  - intros Hexact Hmod. rewrite Hpow in Hmod.
    apply Z.mod_divide in Hmod; [|lia]. destruct Hmod as [c Hc].
    assert (m0 mod 2 ^ k = 0) as Hk0.
    { apply Z.mod_divide; [lia|]. exists (c * 2). lia. }
    destruct (Hex Hexact Hk0) as [Hr Hs].
    assert (shr_m mrs mod 2 = 0) as Heven.
    { rewrite Hq. replace m0 with ((c * 2) * 2 ^ k) by lia.
      rewrite Z.div_mul by lia. apply Z.mod_mul. lia. }
    destruct (shr_1_even mrs Hnn Heven) as [Hr' Hs'].
    rewrite Hr', Hs', Hr, Hs. auto.
Qed.

Lemma shr_fexp_spec (m e : Z) (l : location) :
  0 <= m ->
  let k := Z.max 0 (fexp prec emax (Zdigits2 m + e) - e) in
  exists mrs,
    shr_fexp prec emax m e l = (mrs, e + k) /\
    shr_m mrs = m / 2 ^ k /\
    (l = loc_Exact -> m mod 2 ^ k = 0 -> loc_of_shr_record mrs = loc_Exact).
Proof.
  intros Hm k. unfold shr_fexp, shr.
  assert (shr_m (shr_record_of_loc m l) = m) as Hstart
    by (destruct l as [|[]]; reflexivity).
  destruct (fexp prec emax (Zdigits2 m + e) - e) as [|p|p] eqn:Hn;
    subst k; cbn [Z.max Z.compare].
  - exists (shr_record_of_loc m l). rewrite Z.add_0_r, Z.pow_0_r, Z.div_1_r.
    repeat split; auto. intros -> _. reflexivity.
  - exists (iter_pos shr_1 p (shr_record_of_loc m l)).
    assert (shifted (l = loc_Exact) m (0 + Zpos p)
              (iter_pos shr_1 p (shr_record_of_loc m l))) as [Hq Hex].
    { apply (iter_pos_invariant shr_1 (shifted (l = loc_Exact) m)); [|lia|].
      - intros k x Hk. now apply shifted_step.
      - split; [rewrite Z.pow_0_r, Z.div_1_r; exact Hstart|].
        intros -> _. split; reflexivity. }
    rewrite Z.add_0_l in Hq, Hex.
    repeat split; auto.
    intros Hl Hmod. destruct (Hex Hl Hmod) as [Hr Hs].
    destruct (iter_pos shr_1 p (shr_record_of_loc m l)) as [m' r s].
    cbn [shr_r shr_s] in Hr, Hs. subst r s. reflexivity.
  - exists (shr_record_of_loc m l). rewrite Z.add_0_r, Z.pow_0_r, Z.div_1_r.
    repeat split; auto. intros -> _. reflexivity.
Qed.

Lemma Zdigits2_gt (m : Z) : 0 <= m -> m < 2 ^ Zdigits2 m.
Proof.
  intros Hm. destruct m as [|p|p]; [reflexivity | | lia].
  apply Zdigits2_bounds.
Qed.

Lemma round_nearest_even_bounds (m : Z) (l : location) :
  0 <= m -> 0 <= round_nearest_even m l <= m + 1.
Proof.
  intros Hm. destruct l as [|[]]; cbn [round_nearest_even]; try lia.
  destruct (Z.even m); lia.
Qed.

Lemma fexp_le (x : Z) : x <= 1024 -> fexp prec emax x <= 971.
Proof. unfold fexp, SpecFloat.emin, prec, emax. lia. Qed.

(** Rounding a mantissa and exponent that stay well below the largest
    float never overflows. *)
Lemma binary_round_aux_small (s : bool) (mz ez : Z) (lz : location) :
  0 <= mz -> ez <= 971 -> Zdigits2 mz + ez <= 1023 ->
  exists r,
    finite_or_overflow (binary_round_aux prec emax s mz ez lz) = Ok r.
Proof.
  intros Hm Hez HD. unfold binary_round_aux.
  destruct (shr_fexp_spec mz ez lz Hm) as (mrs1 & E1 & Q1 & _).
  rewrite E1.
  set (k1 := Z.max 0 (fexp prec emax (Zdigits2 mz + ez) - ez)) in *.
  assert (0 <= k1) as Hk1 by (subst k1; lia).
  assert (0 < 2 ^ k1) as Hp1 by (apply Z.pow_pos_nonneg; lia).
  assert (0 <= shr_m mrs1) as Hm1 by (rewrite Q1; apply Z.div_pos; lia).
  pose proof (round_nearest_even_bounds (shr_m mrs1)
                (loc_of_shr_record mrs1) Hm1) as Hm2.
  set (m2 := round_nearest_even (shr_m mrs1) (loc_of_shr_record mrs1)) in *.
  destruct (shr_fexp_spec m2 (ez + k1) loc_Exact (proj1 Hm2))
    as (mrs2 & E2 & Q2 & _).
  rewrite E2.
  set (k2 := Z.max 0 (fexp prec emax (Zdigits2 m2 + (ez + k1)) - (ez + k1)))
    in *.
  assert (ez + k1 <= 971) as He1.
  { subst k1. pose proof (fexp_le (Zdigits2 mz + ez) ltac:(lia)). lia. }
  assert (Zdigits2 m2 + (ez + k1) <= 1024) as HD2.
  { pose proof (Zdigits2_gt mz Hm) as Hlt.
    pose proof (Zdigits2_nonneg mz) as Hd.
    destruct (Z_le_gt_dec k1 (Zdigits2 mz)) as [Hle|Hgt].
    - assert (shr_m mrs1 < 2 ^ (Zdigits2 mz - k1)) as Hq.
      { rewrite Q1. apply Z.div_lt_upper_bound; [lia|].
        rewrite <- Z.pow_add_r by lia.
        now replace (k1 + (Zdigits2 mz - k1)) with (Zdigits2 mz) by lia. }
      assert (m2 < 2 ^ (Zdigits2 mz - k1 + 1)) as Hm2'.
      { rewrite Z.pow_add_r by lia. lia. }
      pose proof (Zdigits2_le m2 (Zdigits2 mz - k1 + 1)
                    (proj1 Hm2) ltac:(lia) Hm2'). lia.
    - assert (shr_m mrs1 = 0) as Hq.
      { rewrite Q1. apply Z.div_small. split; [lia|].
        apply Z.lt_le_trans with (2 ^ Zdigits2 mz); [exact Hlt|].
        apply Z.pow_le_mono_r; lia. }
      assert (m2 < 2 ^ 1) as Hm2' by (cbn; lia).
      pose proof (Zdigits2_le m2 1 (proj1 Hm2) ltac:(lia) Hm2'). lia. }
  assert (ez + k1 + k2 <= 971) as He2.
  { subst k2. pose proof (fexp_le _ HD2). lia. }
  destruct (shr_m mrs2) as [|p|p]; cbn [finite_or_overflow]; eauto.
  replace (ez + k1 + k2 <=? emax - prec) with true
    by (symmetry; apply Z.leb_le; unfold emax, prec; lia).
  cbn [finite_or_overflow]. eauto.
Qed.

(** Rounding a canonical mantissa that was shifted left gives it back. *)
Lemma binary_round_aux_exact (s : bool) (m : positive) (e K : Z) :
  bounded prec emax m e = true -> 0 <= K ->
  binary_round_aux prec emax s (Zpos m * 2 ^ K) (e - K) loc_Exact
  = S754_finite s m e.
Proof.
  intros Hb HK. unfold bounded, canonical_mantissa in Hb.
  apply andb_prop in Hb as [Hc He].
  apply Z.eqb_eq in Hc. apply Z.leb_le in He.
  assert (0 < 2 ^ K) as HpK by (apply Z.pow_pos_nonneg; lia).
  assert (Zdigits2 (Zpos m * 2 ^ K) = Zpos (digits2_pos m) + K) as Hdig.
  { apply Zdigits2_unique; [lia|].
    pose proof (Zdigits2_bounds m) as [Hlo Hhi]. cbn [Zdigits2] in Hlo, Hhi.
    replace (Zpos (digits2_pos m) + K - 1)
      with (Zpos (digits2_pos m) - 1 + K) by lia.
    rewrite (Z.pow_add_r 2 (Zpos (digits2_pos m) - 1) K) by lia.
    rewrite (Z.pow_add_r 2 (Zpos (digits2_pos m)) K) by lia. nia. }
  unfold binary_round_aux.
  destruct (shr_fexp_spec (Zpos m * 2 ^ K) (e - K) loc_Exact ltac:(lia))
    as (mrs1 & E1 & Q1 & X1).
  rewrite E1, Hdig in *.
  replace (Zpos (digits2_pos m) + K + (e - K))
    with (Zpos (digits2_pos m) + e) in * by lia.
  rewrite Hc in *.
  replace (Z.max 0 (e - (e - K))) with K in * by lia.
  rewrite Z.div_mul in Q1 by lia.
  assert (2 ^ K <> 0) as HnK by lia.
  rewrite (X1 eq_refl (Z.mod_mul (Zpos m) (2 ^ K) HnK)), Q1.
  cbn [round_nearest_even].
  destruct (shr_fexp_spec (Zpos m) (e - K + K) loc_Exact ltac:(lia))
    as (mrs2 & E2 & Q2 & _).
  replace (e - K + K) with e in * by lia.
  cbn [Zdigits2] in E2, Q2. rewrite Hc in E2, Q2.
  replace (Z.max 0 (e - e)) with 0 in * by lia.
  rewrite E2, Q2, Z.pow_0_r, Z.div_1_r, Z.add_0_r.
  apply Z.leb_le in He. now rewrite He.
Qed.

Lemma div_eucl_div_mod (a b : Z) : Z.div_eucl a b = (a / b, a mod b).
Proof. unfold Z.div, Z.modulo. now destruct (Z.div_eucl a b). Qed.

Lemma core_shift (n e' : Z) :
  0 < n -> e' <= 0 ->
  match 0 - 0 - e' with
  | Zpos _ => Z.shiftl n (0 - 0 - e')
  | Z0 => n
  | Zneg _ => 0
  end = n * 2 ^ (- e').
Proof.
  intros Hn He. replace (0 - 0 - e') with (- e') by lia.
  destruct (- e') as [|k|k] eqn:Hk; [lia | | lia].
  now rewrite Z.shiftl_mul_pow2 by lia.
Qed.

Lemma new_location_zero (p : Z) : new_location p 0 = loc_Exact.
Proof.
  unfold new_location, new_location_even, new_location_odd.
  now destruct (Z.even p).
Qed.

(** The float nearest to a ratio that is itself a float is that float. *)
Lemma sf_of_ratio_exact (s : bool) (m : positive) (e p : Z) :
  bounded prec emax m e = true -> 0 <= e -> 0 < p ->
  sf_of_ratio s (Zpos m * 2 ^ e * p) p = S754_finite s m e.
Proof.
  intros Hb He Hp.
  assert (0 < 2 ^ e) as Hpe by (apply Z.pow_pos_nonneg; lia).
  assert (0 < Zpos m * 2 ^ e * p) as Hn by nia.
  unfold sf_of_ratio.
  destruct (Zpos m * 2 ^ e * p) as [|pn|pn] eqn:En; try lia.
  destruct p as [|pd|pd]; try lia.
  unfold SFdiv, SFdiv_core_binary.
  set (e' := Z.min (fexp prec emax
                      (Zdigits2 (Zpos pn) + 0 - (Zdigits2 (Zpos pd) + 0)))
                   (0 - 0)).
  assert (e' <= 0) as He' by (subst e'; lia).
  rewrite (core_shift (Zpos pn) e' ltac:(lia) He').
  assert (0 < 2 ^ (- e')) as Hps by (apply Z.pow_pos_nonneg; lia).
  rewrite div_eucl_div_mod, <- En.
  replace (Zpos m * 2 ^ e * Zpos pd * 2 ^ (- e'))
    with (Zpos m * 2 ^ (e + - e') * Zpos pd)
    by (rewrite Z.pow_add_r by lia; ring).
  rewrite Z.div_mul, Z.mod_mul, new_location_zero by lia.
  rewrite xorb_false_r.
  replace e' with (e - (e + - e')) at 2 by lia.
  apply binary_round_aux_exact; [assumption | lia].
Qed.

(** A ratio of at most 2^53 has a finite nearest float. *)
Lemma sf_of_ratio_small (s : bool) (n p : Z) :
  0 <= n -> 0 < p -> n <= 2 ^ 53 * p ->
  exists r, finite_or_overflow (sf_of_ratio s n p) = Ok r.
Proof.
  intros Hn Hp Hle. unfold sf_of_ratio.
  destruct n as [|pn|pn]; [cbn; eauto | | lia].
  destruct p as [|pd|pd]; try lia.
  unfold SFdiv, SFdiv_core_binary.
  set (e' := Z.min (fexp prec emax
                      (Zdigits2 (Zpos pn) + 0 - (Zdigits2 (Zpos pd) + 0)))
                   (0 - 0)).
  assert (e' <= 0) as He' by (subst e'; lia).
  rewrite (core_shift (Zpos pn) e' ltac:(lia) He').
  assert (0 < 2 ^ (- e')) as Hps by (apply Z.pow_pos_nonneg; lia).
  rewrite div_eucl_div_mod.
  set (q := Zpos pn * 2 ^ (- e') / Zpos pd).
  assert (0 <= q) as Hq by (subst q; apply Z.div_pos; nia).
  assert (q <= 2 ^ 53 * 2 ^ (- e')) as Hqle.
  { subst q. apply Z.div_le_upper_bound; [lia|]. nia. }
  assert (q < 2 ^ (54 + - e')) as Hqlt.
  { rewrite Z.pow_add_r by lia.
    change (2 ^ 54) with (2 * 2 ^ 53). nia. }
  pose proof (Zdigits2_le q (54 + - e') Hq ltac:(lia) Hqlt) as Hd.
  apply binary_round_aux_small; lia.
Qed.

Lemma round_half_even_bounds (a b : Z) :
  0 <= a -> 0 < b -> 0 <= round_half_even a b <= a + 1.
Proof.
  intros Ha Hb. unfold round_half_even.
  assert (0 <= a / b <= a) as Hq.
  { split; [apply Z.div_pos; lia|].
    apply Z.div_le_upper_bound; [lia | nia]. }
  destruct (2 * (a mod b) ?= b); [destruct (Z.even (a / b))| |]; lia.
Qed.

Lemma bounded_mantissa (m : positive) (e : Z) :
  bounded prec emax m e = true -> Zpos m < 2 ^ 53.
Proof.
  intros Hb. unfold bounded, canonical_mantissa in Hb.
  apply andb_prop in Hb as [Hc _]. apply Z.eqb_eq in Hc.
  pose proof (Zdigits2_bounds m) as [_ Hhi]. cbn [Zdigits2] in Hhi.
  assert (Zpos (digits2_pos m) <= 53) as Hd
    by (unfold fexp, SpecFloat.emin, prec, emax in Hc; lia).
  apply Z.lt_le_trans with (2 ^ Zpos (digits2_pos m)); [exact Hhi|].
  apply Z.pow_le_mono_r; lia.
Qed.

(** [round(x, ndigits)] returns for every float, and a float that is an
    integer of magnitude 2^53 or more is its own rounding. *)
Lemma float_round_total (x : float) (ndigits : Z) :
  0 <= ndigits -> exists r, float_round x ndigits = Ok r.
Proof.
  intros Hnd. unfold float_round.
  pose proof (Prim2SF_valid x) as Hv.
  destruct (Prim2SF x) as [s|s| |s m e]; eauto.
  cbn [valid_binary] in Hv.
  assert (0 < 10 ^ ndigits) as Hp by (apply Z.pow_pos_nonneg; lia).
  unfold scaled_nearest. destruct (0 <=? e) eqn:He.
  - apply Z.leb_le in He.
    rewrite sf_of_ratio_exact by assumption. cbn. eauto.
  - apply Z.leb_gt in He.
    assert (0 < 2 ^ (- e)) as Hb by (apply Z.pow_pos_nonneg; lia).
    pose proof (bounded_mantissa m e Hv) as Hm.
    pose proof (round_half_even_bounds (Zpos m * 10 ^ ndigits) (2 ^ (- e))
                  ltac:(nia) Hb) as [Hlo Hhi].
    apply sf_of_ratio_small; [assumption | assumption | nia].
Qed.

(** ** Rounding *)

Lemma round_half_even_nearest (a b : Z) :
  0 < b ->
  let gap := 2 * Z.abs (a - round_half_even a b * b) in
  gap <= b /\ (gap = b -> Z.even (round_half_even a b) = true).
Proof.
  intros Hb. unfold round_half_even.
  pose proof (Z.div_mod a b ltac:(lia)) as Hdm.
  pose proof (Z.mod_pos_bound a b Hb) as Hr.
  destruct (Z.compare_spec (2 * (a mod b)) b) as [Heq|Hlt|Hgt].
  - destruct (Z.even (a / b)) eqn:Hev; cbv zeta.
    + split; [nia | intros _; exact Hev].
    + split; [nia|]. intros _.
      rewrite Z.even_add, Hev. reflexivity.
  - cbv zeta. split; nia.
  - cbv zeta. split; nia.
Qed.

Lemma scaled_nearest_spec (m e ndigits : Z) :
  nearest_integer m e ndigits (scaled_nearest m e ndigits).
Proof.
  unfold nearest_integer, scaled_nearest.
  destruct (0 <=? e) eqn:He; [reflexivity|].
  apply round_half_even_nearest. apply Z.pow_pos_nonneg; [lia|].
  apply Z.leb_gt in He. lia.
Qed.

Lemma finite_or_overflow_ok (sf : spec_float) (r : float) :
  finite_or_overflow sf = Ok r -> r = SF2Prim sf.
Proof. destruct sf; simpl; congruence. Qed.

Lemma float_round_rounds (x r : float) (ndigits : Z) :
  float_round x ndigits = Ok r -> rounded_to ndigits x r.
Proof.
  unfold float_round, rounded_to.
  destruct (Prim2SF x) as [s|s| |s m e]; try congruence.
  intros H. exists (scaled_nearest (Zpos m) e ndigits).
  split; [apply scaled_nearest_spec | now apply finite_or_overflow_ok].
Qed.

Lemma py_sub_float_number (v : pyval) (x c : float) :
  number_value v x -> py_sub_float v c = Ok (x - c)%float.
Proof.
  intros [-> | (z & -> & Hz)]; [reflexivity|].
  unfold py_sub_float. now rewrite Hz.
Qed.

(** ** The weather lookup: what the [try] covers *)

(** Once the body has been decoded, the lookup never raises: it returns
    the parsed record or, on any exception of the parsing, the fallback. *)
Lemma get_weather_guarded (E : environment) (name : string) (w : world)
    (r : response) (data : pyval) :
  requests_get E (tick w) (weather_url E name) = Some r ->
  json_body r = Some data ->
  (exists v, parse_weather data = Ok v /\
             get_weather E name w = (Ok v, advance w)) \/
  (exists e, parse_weather data = Raise e /\
             get_weather E name w
             = (Ok weather_fallback,
                add_log (advance w) (Weather_parsing_error e))).
Proof.
  intros Hr Hj. rewrite get_weather_eq, Hr. unfold response_json. rewrite Hj.
  destruct (parse_weather data) as [v|e]; eauto.
Qed.

Lemma get_weather_unguarded (E : environment) (name : string) (w : world) :
  (requests_get E (tick w) (weather_url E name) = None ->
   get_weather E name w = (Raise RequestException, advance w)) /\
  (forall r, requests_get E (tick w) (weather_url E name) = Some r ->
             json_body r = None ->
             get_weather E name w
             = (Raise (decode_exn (json_failure r)), advance w)).
Proof.
  split.
  - intros H. now rewrite get_weather_eq, H.
  - intros r H Hj. rewrite get_weather_eq, H. unfold response_json.
    now rewrite Hj.
Qed.

(** C2.  The weather lookup does raise to its caller: [requests.get] and
    [response.json()] are called before the [try], so a transport failure
    leaves the lookup as RequestException and a body that is not JSON as
    JSONDecodeError, where the claim promises the fallback record. *)
Theorem get_weather_raises_outside_try :
  get_weather fixture_weather_down "Vancouver" empty_world
  = (Raise RequestException, advance empty_world) /\
  get_weather fixture_weather_not_json "Vancouver" empty_world
  = (Raise JSONDecodeError, advance empty_world).
Proof. split; reflexivity. Qed.

(** C6.  On a response that carries a numeric temperature [k] in Kelvin
    and a description, the weather lookup returns the description and
    the temperature [k - 273.15] rounded to one decimal. *)
Theorem get_weather_success (E : environment) (name : string) (w : world)
    (r : response) (d dm first : list (string * pyval)) (rest : list pyval)
    (kelvin description : pyval) (k : float) :
  requests_get E (tick w) (weather_url E name) = Some r ->
  json_body r = Some (PDict d) ->
  assoc_get "main" d = Some (PDict dm) ->
  assoc_get "temp" dm = Some kelvin ->
  number_value kelvin k ->
  assoc_get "weather" d = Some (PList (PDict first :: rest)) ->
  assoc_get "description" first = Some description ->
  exists temperature,
    get_weather E name w
    = (Ok (PDict [("temperature", PFloat temperature);
                  ("description", description)]), advance w) /\
    rounded_to 1 (k - 273.15)%float temperature.
Proof.
  intros Hr Hj Hmain Htemp Hk Hweather Hdesc.
  destruct (float_round_total (k - 273.15)%float 1 ltac:(lia))
    as [temperature Hround].
  exists temperature. split; [|now apply float_round_rounds].
  rewrite get_weather_eq, Hr. unfold response_json. rewrite Hj.
  unfold parse_weather. cbn [py_getitem].
  rewrite Hmain. cbn [rbind py_getitem]. rewrite Htemp. cbn [rbind].
  rewrite (py_sub_float_number _ _ _ Hk). cbn [rbind].
  rewrite Hweather. cbn [rbind py_getitem]. rewrite seq_index_head.
  cbn [rbind py_getitem]. rewrite Hdesc. cbn [rbind].
  rewrite Hround. reflexivity.
Qed.

(** 273.15 K is 0.0 degrees exactly. *)
Lemma get_weather_success_witness :
  get_weather fixture_freezing "Vancouver" empty_world
  = (Ok (PDict [("temperature", PFloat 0); ("description", PStr "clear")]),
     advance empty_world) /\
  rounded_to 1 (273.15 - 273.15)%float 0%float.
Proof.
  destruct (get_weather_success fixture_freezing "Vancouver" empty_world
              {| json_body := Some (fixture_weather (PFloat 273.15) "clear");
                 json_failure := NotJson |}
              _ _ _ _ (PFloat 273.15) (PStr "clear") 273.15%float
              eq_refl eq_refl eq_refl eq_refl (or_introl eq_refl)
              eq_refl eq_refl) as (temperature & Hget & Hround).
  assert (temperature = 0%float) as ->.
  { change (get_weather fixture_freezing "Vancouver" empty_world)
      with (@Ok pyval (PDict [("temperature", PFloat 0);
                              ("description", PStr "clear")]),
            advance empty_world) in Hget.
    now inversion Hget. }
  split; assumption.
Defined.

(** ** The route lookup *)

Lemma get_route_eq (E : environment) (start_c end_c : string)
    (w w1 w2 : world) (start_lat start_lon end_lat end_lon : pyval) :
  get_coordinates E start_c w = (Ok (start_lat, start_lon), w1) ->
  get_coordinates E end_c w1 = (Ok (end_lat, end_lon), w2) ->
  get_route E start_c end_c w =
  let failed e :=
    (Ok zero_route, add_log (advance w2) (Route_parsing_error e)) in
  match requests_post E (tick w2) route_url
          (route_body start_lat start_lon end_lat end_lon) with
  | None => failed RequestException
  | Some r =>
      match response_json r with
      | Raise e => failed e
      | Ok data =>
          match no_routes data with
          | Raise e => failed e
          | Ok true =>
              (Ok zero_route, add_log (advance w2) (Route_API_error data))
          | Ok false =>
              match parse_route data with
              | Ok v => (Ok v, advance w2)
              | Raise e => failed e
              end
          end
      end
  end.
Proof.
  intros H1 H2. unfold get_route.
  rewrite (bind_ok _ _ _ _ _ H1). cbv beta iota.
  rewrite (bind_ok _ _ _ _ _ H2). cbv beta iota zeta.
  unfold try_except, bind, http_post, lift.
  destruct (requests_post E (tick w2) route_url _) as [r|]; [|reflexivity].
  destruct (response_json r) as [data|e]; [|reflexivity].
  destruct (no_routes data) as [[|]|e]; [reflexivity| |reflexivity].
  destruct (parse_route data); reflexivity.
Qed.

Lemma no_routes_missing_or_empty (data : pyval) :
  routes_missing_or_empty data -> no_routes data = Ok true.
Proof.
  intros (d & -> & [H | (v & H & Hv)]);
    unfold no_routes, py_contains, assoc_mem, py_getitem; rewrite H;
    cbn [rbind negb]; [reflexivity | now rewrite Hv].
Qed.

Lemma quotient_truediv (d : Z) (v : pyval) (q : float) :
  quotient d v q -> py_truediv_int v d = Ok q.
Proof.
  intros [f fd Hd | z q' Hq]; cbn [py_truediv_int]; [|exact Hq].
  now rewrite Hd.
Qed.

Lemma convert_quotient (d ndigits : Z) (v : pyval) (q : float) :
  quotient d v q -> 0 <= ndigits ->
  exists r, convert v d ndigits = Ok r /\ rounded_to ndigits q r.
Proof.
  intros Hq Hnd. destruct (float_round_total q ndigits Hnd) as [r Hr].
  exists r. split; [|now apply float_round_rounds].
  unfold convert. now rewrite (quotient_truediv _ _ _ Hq).
Qed.

Lemma for_each_steps (steps : list pyval) :
  Forall step_has_distance steps ->
  exists outs,
    for_each step_record steps = Ok outs /\ Forall2 step_in_km steps outs.
Proof.
  induction 1 as [|step steps Hs _ (outs & IH & IH2)].
  - exists []. split; [reflexivity | constructor].
  - destruct Hs as (sd & instruction & meters & q & -> & Hi & Hm & Hq).
    destruct (convert_quotient 1000 2 meters q Hq ltac:(lia))
      as (km & Hc & Hround).
    exists (PDict [("instruction", instruction); ("distance", PFloat km)]
            :: outs).
    split.
    + cbn [for_each]. unfold step_record at 1, py_get. rewrite Hi, Hm.
      cbn [rbind]. rewrite Hc. cbn [rbind]. now rewrite IH.
    + constructor; [|exact IH2].
      exists sd, instruction, meters, q, km. repeat split; assumption.
Qed.

(** C3.  On a routing reply whose first route has a first segment with a
    distance in metres, a duration in seconds and a list of steps, the
    route lookup returns the distance divided by 1000 and rounded to one
    decimal, the duration divided by 60 and rounded to one decimal, and
    for each step its instruction and its own distance divided by 1000
    and rounded to two decimals. *)
Theorem get_route_success (E : environment) (start_c end_c : string)
    (w w1 w2 : world) (start_lat start_lon end_lat end_lon : pyval)
    (r : response) (d route segment : list (string * pyval))
    (other_routes other_segments steps : list pyval)
    (meters seconds : pyval) (qd qt : float) :
  get_coordinates E start_c w = (Ok (start_lat, start_lon), w1) ->
  get_coordinates E end_c w1 = (Ok (end_lat, end_lon), w2) ->
  requests_post E (tick w2) route_url
    (route_body start_lat start_lon end_lat end_lon) = Some r ->
  json_body r = Some (PDict d) ->
  assoc_get "routes" d = Some (PList (PDict route :: other_routes)) ->
  assoc_get "segments" route
  = Some (PList (PDict segment :: other_segments)) ->
  assoc_get "distance" segment = Some meters ->
  assoc_get "duration" segment = Some seconds ->
  assoc_get "steps" segment = Some (PList steps) ->
  quotient 1000 meters qd ->
  quotient 60 seconds qt ->
  Forall step_has_distance steps ->
  exists km minutes outs,
    get_route E start_c end_c w
    = (Ok (PDict [("distance", PFloat km); ("duration", PFloat minutes);
                  ("steps", PList outs)]), advance w2) /\
    rounded_to 1 qd km /\
    rounded_to 1 qt minutes /\
    Forall2 step_in_km steps outs.
Proof.
  intros H1 H2 Hr Hj Hroutes Hsegs Hm Hs Hsteps Hqd Hqt Hlist.
  destruct (convert_quotient 1000 1 meters qd Hqd ltac:(lia))
    as (km & Hkm & Rkm).
  destruct (convert_quotient 60 1 seconds qt Hqt ltac:(lia))
    as (minutes & Hmin & Rmin).
  destruct (for_each_steps steps Hlist) as (outs & Hfor & Houts).
  exists km, minutes, outs. repeat split; try assumption.
  rewrite (get_route_eq _ _ _ _ _ _ _ _ _ _ H1 H2), Hr.
  cbv zeta. unfold response_json. rewrite Hj.
  unfold no_routes, parse_route, py_contains, assoc_mem.
  cbn [py_getitem]. rewrite Hroutes. cbn [rbind negb py_truthy py_getitem].
  rewrite seq_index_head. cbn [rbind py_getitem]. rewrite Hsegs.
  cbn [rbind py_getitem]. rewrite seq_index_head.
  cbn [rbind py_get]. rewrite Hsteps, Hm, Hs. cbn [rbind]. rewrite Hkm.
  cbn [rbind]. rewrite Hmin. cbn [rbind py_iter].
  now rewrite Hfor.
Qed.

(** 12345 m is 12.3 km and 125 s is 2.1 min. *)
Lemma get_route_success_witness :
  get_route fixture_short_route "Vancouver" "Victoria" empty_world
  = (Ok (PDict [("distance", PFloat 12.3); ("duration", PFloat 2.1);
                ("steps", PList fixture_short_steps_listed)]),
     after_route_lookup) /\
  rounded_to 1 12.345 12.3 /\
  rounded_to 1 (125 / 60)%float 2.1 /\
  Forall2 step_in_km fixture_short_steps fixture_short_steps_listed.
Proof.
  assert (Forall step_has_distance fixture_short_steps) as Hsteps.
  { repeat constructor.
    - exists [("instruction", PStr "Head north"); ("distance", PInt 1234)],
        (PStr "Head north"), (PInt 1234), 1.234%float.
      repeat split. now constructor.
    - exists [("instruction", PStr "Arrive"); ("distance", PFloat 567.8)],
        (PStr "Arrive"), (PFloat 567.8), (567.8 / 1000)%float.
      repeat split. now apply (quotient_of_float 1000 567.8 1000). }
  destruct (get_route_success fixture_short_route "Vancouver" "Victoria"
              empty_world (advance empty_world) (advance (advance empty_world))
              (PFloat 49.25) (PFloat (-123.1)) (PFloat 48.43)
              (PFloat (-123.37))
              {| json_body := Some (fixture_route (PInt 12345) (PInt 125)
                                      fixture_short_steps);
                 json_failure := NotJson |}
              _ _ _ _ _ fixture_short_steps (PInt 12345) (PInt 125)
              12.345%float (125 / 60)%float
              eq_refl eq_refl eq_refl eq_refl eq_refl eq_refl eq_refl eq_refl
              eq_refl (quotient_of_int 1000 12345 12.345 eq_refl)
              (quotient_of_int 60 125 (125 / 60) eq_refl) Hsteps)
    as (km & minutes & outs & Hget & Rkm & Rmin & Houts).
  change (get_route fixture_short_route "Vancouver" "Victoria" empty_world)
    with (@Ok pyval (PDict [("distance", PFloat 12.3);
                            ("duration", PFloat 2.1);
                            ("steps", PList fixture_short_steps_listed)]),
          after_route_lookup) in Hget.
  inversion Hget; subst km minutes outs.
  repeat split; assumption.
Defined.

Lemma get_route_returns (E : environment) (start_c end_c : string)
    (w w1 w2 : world) (c1 c2 : pyval * pyval) :
  get_coordinates E start_c w = (Ok c1, w1) ->
  get_coordinates E end_c w1 = (Ok c2, w2) ->
  exists v w', get_route E start_c end_c w = (Ok v, w').
Proof.
  destruct c1 as [start_lat start_lon], c2 as [end_lat end_lon].
  intros H1 H2. rewrite (get_route_eq _ _ _ _ _ _ _ _ _ _ H1 H2). cbv zeta.
  destruct (requests_post E (tick w2) route_url _) as [r|]; [|eauto].
  destruct (response_json r) as [data|e]; [|eauto].
  destruct (no_routes data) as [[|]|e]; [eauto| |eauto].
  destruct (parse_route data); eauto.
Qed.

Lemma unknown_city_unresolved (E : environment) (name : string)
    (w w' : world) (entries : list city) (latitude longitude : pyval) :
  get_coordinates E name w = (Ok (latitude, longitude), w') ->
  get_bc_cities E w = (Ok (map city_dict entries), w') ->
  Forall (fun c => ~ same_name (city_name c) name) entries ->
  latitude = PNone /\ longitude = PNone.
Proof.
  intros Hc Hfetch Hno. rewrite get_coordinates_eq, Hfetch in Hc.
  rewrite (find_coordinates_no_match _ _ Hno) in Hc.
  now inversion Hc.
Qed.

(** C5, as the code has it.  Once both coordinate resolutions have
    returned, the route lookup never raises, and it returns the zeroed
    fallback whenever the routing call fails, its body is not JSON, the
    route data is missing or empty, or walking the data raises.  A name
    that is not in the fetched list resolves to (None, None); the request
    is then sent with these coordinates, and the result is the fallback
    under the same conditions on the reply. *)
Theorem get_route_fallback (E : environment) (start_c end_c : string)
    (w w1 w2 : world) (start_lat start_lon end_lat end_lon : pyval) :
  get_coordinates E start_c w = (Ok (start_lat, start_lon), w1) ->
  get_coordinates E end_c w1 = (Ok (end_lat, end_lon), w2) ->
  (exists v w', get_route E start_c end_c w = (Ok v, w')) /\
  (route_lookup_fails E (tick w2)
     (route_body start_lat start_lon end_lat end_lon) ->
   fst (get_route E start_c end_c w) = Ok zero_route) /\
  (forall entries,
     get_bc_cities E w = (Ok (map city_dict entries), w1) ->
     Forall (fun c => ~ same_name (city_name c) start_c) entries ->
     start_lat = PNone /\ start_lon = PNone) /\
  (forall entries,
     get_bc_cities E w1 = (Ok (map city_dict entries), w2) ->
     Forall (fun c => ~ same_name (city_name c) end_c) entries ->
     end_lat = PNone /\ end_lon = PNone).
Proof.
  intros H1 H2. split; [|split; [|split]].
  - eapply get_route_returns; eauto.
  - intros Hfail. rewrite (get_route_eq _ _ _ _ _ _ _ _ _ _ H1 H2). cbv zeta.
    destruct Hfail as [Hr | r Hr Hj | r data Hr Hj Hd | r data e Hr Hj He];
      rewrite Hr; [reflexivity | | | ];
      unfold response_json; rewrite Hj; [reflexivity | | ].
    + now rewrite (no_routes_missing_or_empty _ Hd).
    + destruct He as [He | He].
      * now rewrite He.
      * destruct (no_routes data) as [[|]|e']; [reflexivity | | reflexivity].
        now rewrite He.
  - intros entries. now apply unknown_city_unresolved.
  - intros entries. now apply unknown_city_unresolved.
Qed.

Lemma get_route_fallback_witness :
  (exists v w',
     get_route fixture_route_down "Atlantis" "Victoria" empty_world
     = (Ok v, w')) /\
  fst (get_route fixture_route_down "Atlantis" "Victoria" empty_world)
  = Ok zero_route.
Proof.
  destruct (get_route_fallback fixture_route_down "Atlantis" "Victoria"
              empty_world (advance empty_world)
              (advance (advance empty_world))
              PNone PNone (PFloat 48.43) (PFloat (-123.37))
              eq_refl eq_refl) as (Hret & Hzero & _).
  split; [exact Hret|].
  apply Hzero. apply routing_transport_failure. reflexivity.
Defined.

(** C5 as stated fails: "Atlantis" is not in the fetched list, the request
    goes out with null start coordinates, the routing service answers with
    a route all the same, and the lookup returns that route. *)
Lemma unknown_city_route_counterexample :
  Forall (fun c => ~ same_name (city_name c) "Atlantis") fixture_entries /\
  get_bc_cities fixture_up empty_world
  = (Ok (map city_dict fixture_entries), advance empty_world) /\
  fst (get_route fixture_up "Atlantis" "Victoria" empty_world)
  = Ok (PDict [("distance", PFloat 100); ("duration", PFloat 90);
               ("steps", PList [
                  PDict [("instruction", PStr "Head north");
                         ("distance", PFloat 1.23)];
                  PDict [("instruction", PStr "Turn left");
                         ("distance", PFloat 0.57)];
                  PDict [("instruction", PStr "Arrive");
                         ("distance", PFloat 0)]])]) /\
  fst (get_route fixture_up "Atlantis" "Victoria" empty_world)
  <> Ok zero_route.
Proof.
  split; [repeat constructor; discriminate|].
  split; [reflexivity|]. split; [reflexivity|]. discriminate.
Qed.

(** ** The query store *)

Lemma insert_desc_perm (d : document) (l : list document) :
  Permutation (d :: l) (insert_desc d l).
Proof.
  induction l as [|x l IH]; cbn [insert_desc]; [reflexivity|].
  destruct (datetime_key (timestamp x) <? datetime_key (timestamp d));
    [reflexivity|].
  rewrite perm_swap. now constructor.
Qed.

Lemma sort_desc_perm (l : list document) : Permutation l (sort_desc l).
Proof.
  induction l as [|d l IH]; [reflexivity|].
  cbn [sort_desc fold_right]. rewrite <- insert_desc_perm. now constructor.
Qed.

Lemma insert_desc_sorted (d : document) (l : list document) :
  StronglySorted not_older l -> StronglySorted not_older (insert_desc d l).
Proof.
  induction 1 as [|x l Hl IH Hx]; cbn [insert_desc].
  - repeat constructor.
  - destruct (Z.ltb_spec (datetime_key (timestamp x))
                         (datetime_key (timestamp d))) as [Hlt|Hge].
    + constructor; [now constructor|].
      constructor; [unfold not_older; lia|].
      eapply Forall_impl; [|exact Hx]. unfold not_older. intros; lia.
    + constructor; [exact IH|].
      rewrite <- insert_desc_perm. constructor; [exact Hge | exact Hx].
Qed.

Lemma sort_desc_sorted (l : list document) :
  StronglySorted not_older (sort_desc l).
Proof.
  induction l as [|d l IH]; [constructor|].
  cbn [sort_desc fold_right]. now apply insert_desc_sorted.
Qed.

Lemma get_mongodb_client_eq (w : world) :
  get_mongodb_client w = (Ok (Some tt), advance w).
Proof. reflexivity. Qed.

Lemma get_travel_history_eq (E : environment) (w : world) :
  get_travel_history E w =
  if mongo_reachable E (S (tick w)) then
    (Ok (Some (sort_desc (collection w))), advance (advance w))
  else
    (Ok (Some []),
     add_log (advance (advance w))
       (Error_getting_history_from_MongoDB PyMongoError)).
Proof.
  unfold get_travel_history, try_except, bind.
  rewrite get_mongodb_client_eq.
  unfold find_sorted. cbn [tick advance collection].
  destruct (mongo_reachable E (S (tick w))); reflexivity.
Qed.

(** C8.  The listing never fails: the client is made without touching
    the server, so a storage failure is a failure of the query, inside
    the [try].  When the query is answered the listing is every stored
    record, none before a newer one; when the query fails it is the empty
    list. *)
Theorem get_travel_history_listing (E : environment) (w : world) :
  exists queries,
    fst (get_travel_history E w) = Ok (Some queries) /\
    if mongo_reachable E (S (tick w))
    then Permutation (collection w) queries /\
         StronglySorted not_older queries
    else queries = [].
Proof.
  rewrite get_travel_history_eq.
  destruct (mongo_reachable E (S (tick w))); cbn [fst].
  - exists (sort_desc (collection w)).
    auto using sort_desc_perm, sort_desc_sorted.
  - exists []. split; reflexivity.
Qed.

(** With the server down, the fixture's three queries are not listed: the
    listing is empty and one line is printed. *)
Example get_travel_history_server_down :
  get_travel_history fixture_mongo_down fixture_stored
  = (Ok (Some []),
     add_log (advance (advance fixture_stored))
       (Error_getting_history_from_MongoDB PyMongoError)).
Proof. reflexivity. Qed.

(** With the server up, the fixture's three queries come back by hour 17,
    12, 9. *)
Example get_travel_history_fixture :
  fst (get_travel_history fixture_up fixture_stored)
  = Ok (Some [fixture_document 3 17; fixture_document 5 12;
              fixture_document 1 9]).
Proof. reflexivity. Qed.

(** ** The form page: what is stored *)

Ltac step_rbind :=
  match goal with
  | |- context [rbind ?r _] =>
      let H := fresh "Hstep" in
      destruct r eqn:H; cbn [rbind]; try discriminate
  end.

Lemma parse_route_shape (data v : pyval) :
  parse_route data = Ok v ->
  exists km minutes outs,
    v = PDict [("distance", PFloat km); ("duration", PFloat minutes);
               ("steps", PList outs)].
Proof.
  unfold parse_route. repeat step_rbind.
  intros H; inversion H. eauto.
Qed.

Lemma get_coordinates_world (E : environment) (name : string) (w : world) :
  snd (get_coordinates E name w) = advance w.
Proof.
  rewrite get_coordinates_eq, get_bc_cities_eq.
  destruct (match requests_get E (tick w) geo_url with
            | Some r => _ | None => _ end); reflexivity.
Qed.

Lemma get_route_shape (E : environment) (start_c end_c : string)
    (w w' : world) (r : result pyval) :
  get_route E start_c end_c w = (r, w') ->
  collection w' = collection w /\
  forall v, r = Ok v ->
    exists distance duration steps,
      v = PDict [("distance", distance); ("duration", duration);
                 ("steps", PList steps)] /\
      is_number distance /\ is_number duration.
Proof.
  pose proof (get_coordinates_world E start_c w) as W1.
  destruct (get_coordinates E start_c w) as [[[slat slon]|e1] w1] eqn:H1;
    cbn [snd] in W1; subst w1.
  2:{ unfold get_route. rewrite (bind_raise _ _ _ _ _ H1).
      intros H; inversion H. split; [reflexivity | discriminate]. }
  pose proof (get_coordinates_world E end_c (advance w)) as W2.
  destruct (get_coordinates E end_c (advance w)) as [[[elat elon]|e2] w2]
    eqn:H2; cbn [snd] in W2; subst w2.
  2:{ unfold get_route. rewrite (bind_ok _ _ _ _ _ H1). cbv beta iota.
      rewrite (bind_raise _ _ _ _ _ H2).
      intros H; inversion H. split; [reflexivity | discriminate]. }
  rewrite (get_route_eq _ _ _ _ _ _ _ _ _ _ H1 H2). cbv zeta.
  assert (forall v, Ok zero_route = Ok v ->
            exists distance duration steps,
              v = PDict [("distance", distance); ("duration", duration);
                         ("steps", PList steps)] /\
              is_number distance /\ is_number duration) as Hzero
    by (intros v Hv; inversion Hv; unfold zero_route;
        do 3 eexists; repeat split).
  destruct (requests_post E _ route_url _) as [resp|];
    [|intros H; inversion H; split; [reflexivity | exact Hzero]].
  destruct (response_json resp) as [data|e];
    [|intros H; inversion H; split; [reflexivity | exact Hzero]].
  destruct (no_routes data) as [[|]|e];
    [intros H; inversion H; split; [reflexivity | exact Hzero] |
    |intros H; inversion H; split; [reflexivity | exact Hzero]].
  destruct (parse_route data) as [v|e] eqn:Hp;
    [|intros H; inversion H; split; [reflexivity | exact Hzero]].
  intros H; inversion H. split; [reflexivity|].
  intros v' Hv'; inversion Hv'; subst v'.
  destruct (parse_route_shape _ _ Hp) as (km & minutes & outs & ->).
  do 3 eexists; repeat split.
Qed.

Lemma get_weather_collection (E : environment) (name : string) (w : world) :
  collection (snd (get_weather E name w)) = collection w.
Proof.
  rewrite get_weather_eq.
  destruct (requests_get E (tick w) (weather_url E name)) as [r|];
    [|reflexivity].
  destruct (response_json r) as [data|e]; [|reflexivity].
  destruct (parse_weather data); reflexivity.
Qed.

Lemma get_bc_cities_collection (E : environment) (w : world) :
  collection (snd (get_bc_cities E w)) = collection w.
Proof. rewrite get_bc_cities_eq. reflexivity. Qed.

Lemma save_travel_query_eq (E : environment)
    (start_c end_c summary : string) (w : world) :
  save_travel_query E start_c end_c summary w =
  if mongo_reachable E (S (S (tick w))) then
    (Ok (Some (S (S (tick w)))),
     {| tick := S (S (S (tick w)));
        collection :=
          collection w ++
          [mk_document (S (S (tick w))) start_c end_c
             (bson_datetime
                (datetime_fromtimestamp (clock E (S (tick w)))
                   (local_utcoffset E)))
             summary];
        log := log w |})
  else
    (Ok None,
     add_log (advance (advance (advance w)))
       (Error_saving_to_MongoDB PyMongoError)).
Proof.
  unfold save_travel_query, try_except, bind.
  rewrite get_mongodb_client_eq.
  unfold datetime_now, insert_one. cbn [tick advance collection log].
  destruct (mongo_reachable E (S (S (tick w)))); reflexivity.
Qed.


Lemma bind_lift {A B : Type} (r : result A) (k : A -> M B) (w : world) :
  bind (lift r) k w =
  match r with
  | Ok a => k a w
  | Raise e => (Raise e, w)
  end.
Proof. destruct r; reflexivity. Qed.

Lemma summary_dict_of_route (distance duration : pyval) (steps : list pyval) :
  summary_dict (PDict [("distance", distance); ("duration", duration);
                       ("steps", PList steps)])
  = Ok (route_summary_of distance duration steps).
Proof. reflexivity. Qed.

(** The stages of a valid submission, one after the other. *)
Lemma index_post_stages (E : environment) (data : list (string * string))
    (start_c end_c : string) (w : world) :
  travel_form E data = Some (start_c, end_c) ->
  index E (POST data) w =
  match get_weather E start_c w with
  | (Raise e, wa) => (Raise e, wa)
  | (Ok weather_start, wa) =>
  match get_weather E end_c wa with
  | (Raise e, wb) => (Raise e, wb)
  | (Ok weather_end, wb) =>
  match get_route E start_c end_c wb with
  | (Raise e, wc) => (Raise e, wc)
  | (Ok route_details, wc) =>
  match get_travel_advice weather_start weather_end
          (datetime_fromtimestamp (clock E (tick wc)) pacific_utcoffset) with
  | Raise e => (Raise e, advance wc)
  | Ok travel_advice =>
  match summary_dict route_details with
  | Raise e => (Raise e, advance wc)
  | Ok summary =>
  match save_travel_query E start_c end_c (json_dumps E summary)
          (advance wc) with
  | (Raise e, wd) => (Raise e, wd)
  | (Ok _, wd) =>
  match get_bc_cities E wd with
  | (Raise e, we) => (Raise e, we)
  | (Ok cities, we) =>
      (Ok {| ctx_weather_start := weather_start;
             ctx_weather_end := weather_end;
             ctx_route_details := route_details;
             ctx_travel_advice := PStr travel_advice;
             ctx_cities := cities |}, we)
  end end end end end end end.
Proof.
  intros Hform. unfold index. rewrite Hform.
  destruct (get_weather E start_c w) as [[ws|e] wa] eqn:Ha;
    [rewrite (bind_ok _ _ _ _ _ Ha) | now rewrite (bind_raise _ _ _ _ _ Ha)].
  destruct (get_weather E end_c wa) as [[we|e] wb] eqn:Hb;
    [rewrite (bind_ok _ _ _ _ _ Hb) | now rewrite (bind_raise _ _ _ _ _ Hb)].
  destruct (get_route E start_c end_c wb) as [[route|e] wc] eqn:Hr;
    [rewrite (bind_ok _ _ _ _ _ Hr) | now rewrite (bind_raise _ _ _ _ _ Hr)].
  rewrite (bind_ok (datetime_now E (Some pacific_utcoffset)) _ wc
             (advance wc) _ eq_refl).
  rewrite bind_lift.
  destruct (get_travel_advice ws we _) as [advice|e]; [|reflexivity].
  rewrite bind_lift.
  destruct (summary_dict route) as [summary|e]; [|reflexivity].
  destruct (save_travel_query E start_c end_c (json_dumps E summary)
              (advance wc)) as [[saved|e] wd] eqn:Hs;
    [rewrite (bind_ok _ _ _ _ _ Hs) | now rewrite (bind_raise _ _ _ _ _ Hs)].
  destruct (get_bc_cities E wd) as [[cities|e] we'] eqn:Hc;
    [now rewrite (bind_ok _ _ _ _ _ Hc)
    | now rewrite (bind_raise _ _ _ _ _ Hc)].
Qed.

Lemma get_route_tick (E : environment) (start_c end_c : string)
    (w w' : world) (v : pyval) :
  get_route E start_c end_c w = (Ok v, w') ->
  tick w' = S (S (S (tick w))).
Proof.
  pose proof (get_coordinates_world E start_c w) as W1.
  destruct (get_coordinates E start_c w) as [[[slat slon]|e1] w1] eqn:H1;
    cbn [snd] in W1; subst w1.
  2:{ unfold get_route. rewrite (bind_raise _ _ _ _ _ H1). discriminate. }
  pose proof (get_coordinates_world E end_c (advance w)) as W2.
  destruct (get_coordinates E end_c (advance w)) as [[[elat elon]|e2] w2]
    eqn:H2; cbn [snd] in W2; subst w2.
  2:{ unfold get_route. rewrite (bind_ok _ _ _ _ _ H1). cbv beta iota.
      rewrite (bind_raise _ _ _ _ _ H2). discriminate. }
  rewrite (get_route_eq _ _ _ _ _ _ _ _ _ _ H1 H2). cbv zeta.
  destruct (requests_post E _ route_url _) as [resp|];
    [|intros H; inversion H; reflexivity].
  destruct (response_json resp) as [data|e];
    [|intros H; inversion H; reflexivity].
  destruct (no_routes data) as [[|]|e];
    [intros H; inversion H; reflexivity|
    |intros H; inversion H; reflexivity].
  destruct (parse_route data) as [v'|e]; intros H; inversion H; reflexivity.
Qed.

(** C7.  When a valid submission is served and the store takes the
    insert (the ninth outside call of the run), exactly one record is
    added, for the two submitted cities, and its summary is the
    serialization of exactly three entries: the distance and the duration
    of the route looked up for this submission and shown on the page,
    both numbers, and the number of its steps; the steps themselves are
    not in it. *)
Theorem persisted_summary (E : environment) (data : list (string * string))
    (start_c end_c : string) (w w' : world) (ctx : context) :
  travel_form E data = Some (start_c, end_c) ->
  index E (POST data) w = (Ok ctx, w') ->
  mongo_reachable E (8 + tick w)%nat = true ->
  exists distance duration steps doc,
    fst (get_route E start_c end_c
           (snd (get_weather E end_c (snd (get_weather E start_c w)))))
    = Ok (ctx_route_details ctx) /\
    ctx_route_details ctx
    = PDict [("distance", distance); ("duration", duration);
             ("steps", PList steps)] /\
    is_number distance /\ is_number duration /\
    collection w' = (collection w ++ [doc])%list /\
    start_city doc = start_c /\ end_city doc = end_c /\
    route_summary doc
    = json_dumps E (route_summary_of distance duration steps).
Proof.
  intros Hform Hidx Hreach.
  rewrite (index_post_stages _ _ _ _ _ Hform) in Hidx.
  pose proof (get_weather_collection E start_c w) as Ca.
  pose proof (get_weather_tick E start_c w) as Ta.
  destruct (get_weather E start_c w) as [[ws|e] wa] eqn:Ha;
    [|discriminate Hidx].
  cbn [snd] in *.
  pose proof (get_weather_collection E end_c wa) as Cb.
  pose proof (get_weather_tick E end_c wa) as Tb.
  destruct (get_weather E end_c wa) as [[we|e] wb] eqn:Hb;
    [|discriminate Hidx].
  cbn [snd] in *.
  destruct (get_route E start_c end_c wb) as [[route|e] wc] eqn:Hr;
    [|discriminate Hidx].
  destruct (get_route_shape _ _ _ _ _ _ Hr) as [Cc Hshape].
  pose proof (get_route_tick _ _ _ _ _ _ Hr) as Tc.
  destruct (Hshape route eq_refl)
    as (distance & duration & steps & -> & Nd & Nt).
  destruct (get_travel_advice ws we _) as [advice|e]; [|discriminate Hidx].
  rewrite summary_dict_of_route, save_travel_query_eq in Hidx.
  cbn [tick advance collection log] in Hidx.
  replace (S (S (S (tick wc)))) with (8 + tick w)%nat in Hidx
    by (rewrite Tc, Tb, Ta; reflexivity).
  rewrite Hreach in Hidx.
  match type of Hidx with
  | context [get_bc_cities E ?wd] =>
      pose proof (get_bc_cities_collection E wd) as Ce;
      destruct (get_bc_cities E wd) as [[cities|e] we'] eqn:Hc;
      [|discriminate Hidx]
  end.
  cbn [snd collection] in Ce. inversion Hidx; subst ctx w'.
  cbn [ctx_route_details].
  exists distance, duration, steps.
  eexists (mk_document _ start_c end_c _ _).
  repeat split; try assumption.
  rewrite Ce. cbn [collection]. rewrite Cc, Cb, Ca. reflexivity.
Qed.

Lemma persisted_summary_witness :
  exists ctx w',
    index fixture_up fixture_post empty_world = (Ok ctx, w') /\
    exists distance duration steps doc,
      fst (get_route fixture_up "Vancouver" "Victoria"
             (snd (get_weather fixture_up "Victoria"
                     (snd (get_weather fixture_up "Vancouver"
                             empty_world)))))
      = Ok (ctx_route_details ctx) /\
      ctx_route_details ctx
      = PDict [("distance", distance); ("duration", duration);
               ("steps", PList steps)] /\
      is_number distance /\ is_number duration /\
      collection w' = (collection empty_world ++ [doc])%list /\
      start_city doc = "Vancouver" /\ end_city doc = "Victoria" /\
      route_summary doc
      = json_dumps fixture_up (route_summary_of distance duration steps).
Proof.
  do 2 eexists. split; [reflexivity|].
  apply (persisted_summary fixture_up
           [("start_city", "Vancouver"); ("end_city", "Victoria")]
           "Vancouver" "Victoria" empty_world);
    reflexivity.
Defined.

(** The scenario of the specification: Vancouver to Victoria, clear
    weather at both ends, a route of 100000 m, 5400 s and three steps,
    at 14 o'clock Pacific time.  The page shows the good-time advice and
    the route in kilometres and minutes, and one record is stored whose
    summary has the distance, the duration and the count 3. *)
Example end_to_end_scenario :
  exists ctx w',
    index fixture_up fixture_post empty_world = (Ok ctx, w') /\
    ctx_travel_advice ctx = PStr good_time_message /\
    ctx_route_details ctx
    = PDict [("distance", PFloat 100); ("duration", PFloat 90);
             ("steps", PList [
                PDict [("instruction", PStr "Head north");
                       ("distance", PFloat 1.23)];
                PDict [("instruction", PStr "Turn left");
                       ("distance", PFloat 0.57)];
                PDict [("instruction", PStr "Arrive");
                       ("distance", PFloat 0)]])] /\
    map route_summary (collection w')
    = ["distance=?,duration=?,steps_count=3"] /\
    log w' = [].
Proof. do 2 eexists. repeat split; reflexivity. Qed.

(** * Further properties of the views *)

(** ** The query store *)

(** X1.  [save_travel_query] never raises.  When the insert succeeds it
    returns the new record's id, appends exactly that one record for the
    given cities and summary and prints nothing; when the insert fails it
    returns None, leaves the collection as it was and prints one line. *)
Theorem save_travel_query_outcome (E : environment)
    (start_c end_c summary : string) (w : world) :
  let r := fst (save_travel_query E start_c end_c summary w) in
  let w' := snd (save_travel_query E start_c end_c summary w) in
  (mongo_reachable E (S (S (tick w))) = true /\
   exists doc,
     r = Ok (Some (doc_id doc)) /\
     saved_as doc (doc_id doc) start_c end_c summary /\
     collection w' = (collection w ++ [doc])%list /\
     log w' = log w) \/
  (mongo_reachable E (S (S (tick w))) = false /\
   r = Ok None /\
   collection w' = collection w /\
   log w' = (log w ++ [Error_saving_to_MongoDB PyMongoError])%list).
Proof.
  cbv zeta. rewrite save_travel_query_eq.
  destruct (mongo_reachable E (S (S (tick w)))) eqn:Hi.
  - left. split; [reflexivity|].
    exists (mk_document (S (S (tick w))) start_c end_c
              (bson_datetime
                 (datetime_fromtimestamp (clock E (S (tick w)))
                    (local_utcoffset E))) summary).
    repeat split.
  - right. repeat split.
Qed.

(** X2.  [get_travel_history] never raises and never changes what is
    stored.  With the query answered the listing is a rearrangement of
    the stored records with no record before a newer one, and nothing is
    printed; with the query failing it is the empty list. *)
Theorem get_travel_history_read_only (E : environment) (w : world) :
  let w' := snd (get_travel_history E w) in
  collection w' = collection w /\
  exists queries,
    fst (get_travel_history E w) = Ok (Some queries) /\
    (mongo_reachable E (S (tick w)) = true ->
     Permutation (collection w) queries /\
     StronglySorted not_older queries /\ log w' = log w) /\
    (mongo_reachable E (S (tick w)) = false -> queries = []).
Proof.
  cbv zeta. rewrite get_travel_history_eq.
  destruct (mongo_reachable E (S (tick w))) eqn:Hq; cbn [fst snd].
  - split; [reflexivity|].
    exists (sort_desc (collection w)). split; [reflexivity|].
    split; [|discriminate]. intros _.
    auto using sort_desc_perm, sort_desc_sorted.
  - split; [reflexivity|].
    exists []. split; [reflexivity|]. split; [discriminate | reflexivity].
Qed.

Lemma get_travel_history_read_only_witness :
  collection (snd (get_travel_history fixture_up fixture_stored))
  = collection fixture_stored /\
  exists queries,
    fst (get_travel_history fixture_up fixture_stored) = Ok (Some queries) /\
    (mongo_reachable fixture_up (S (tick fixture_stored)) = true ->
     Permutation (collection fixture_stored) queries /\
     StronglySorted not_older queries /\
     log (snd (get_travel_history fixture_up fixture_stored))
     = log fixture_stored) /\
    (mongo_reachable fixture_up (S (tick fixture_stored)) = false ->
     queries = []).
Proof.
  exact (get_travel_history_read_only fixture_up fixture_stored).
Defined.

(** X3.  A saved query is found again: after [save_travel_query] has
    returned an id, a listing that the server answers holds a record
    with that id, the two cities and the summary, beside every record
    stored before, and is one record longer than the store was. *)
Theorem saved_query_is_listed (E : environment)
    (start_c end_c summary : string) (w w1 : world) (id : nat) :
  save_travel_query E start_c end_c summary w = (Ok (Some id), w1) ->
  mongo_reachable E (S (tick w1)) = true ->
  exists queries doc,
    fst (get_travel_history E w1) = Ok (Some queries) /\
    In doc queries /\ saved_as doc id start_c end_c summary /\
    (forall old, In old (collection w) -> In old queries) /\
    List.length queries = S (List.length (collection w)).
Proof.
  intros Hsave Hq. rewrite save_travel_query_eq in Hsave.
  destruct (mongo_reachable E (S (S (tick w)))); [|discriminate].
  injection Hsave as Hid Hw1.
  rewrite get_travel_history_eq, Hq. cbn [fst].
  set (doc := mk_document (S (S (tick w))) start_c end_c
                (bson_datetime
                   (datetime_fromtimestamp (clock E (S (tick w)))
                      (local_utcoffset E))) summary).
  assert (collection w1 = (collection w ++ [doc])%list) as Hcol
    by (rewrite <- Hw1; reflexivity).
  pose proof (sort_desc_perm (collection w1)) as Hperm.
  exists (sort_desc (collection w1)), doc. split; [reflexivity|].
  split; [|split; [|split]].
  - apply (Permutation_in _ Hperm). rewrite Hcol.
    apply in_or_app. right. now left.
  - repeat split. exact Hid.
  - intros old Hold. apply (Permutation_in _ Hperm). rewrite Hcol.
    apply in_or_app. now left.
  - rewrite <- (Permutation_length Hperm), Hcol, length_app. cbn. lia.
Qed.

Lemma saved_query_is_listed_witness :
  exists queries doc,
    fst (get_travel_history fixture_up
           (snd (save_travel_query fixture_up "Kelowna" "Nanaimo"
                   "distance=?,duration=?,steps_count=0" fixture_stored)))
    = Ok (Some queries) /\
    In doc queries /\
    saved_as doc 9 "Kelowna" "Nanaimo" "distance=?,duration=?,steps_count=0" /\
    (forall old, In old (collection fixture_stored) -> In old queries) /\
    List.length queries = S (List.length (collection fixture_stored)).
Proof.
  apply (saved_query_is_listed fixture_up "Kelowna" "Nanaimo"
           "distance=?,duration=?,steps_count=0" fixture_stored _ 9);
    reflexivity.
Defined.

(** ** The city lookup *)

Lemma for_each_city_record_ok (items cities : list pyval) :
  for_each city_record items = Ok cities ->
  (exists entries, items = map PDict entries) /\
  List.length cities = List.length items /\
  Forall city_shaped cities.
Proof.
  revert cities. induction items as [|item items IH]; intros cities H.
  - inversion H. split; [exists []; reflexivity|]. split; constructor.
  - cbn [for_each] in H.
    destruct item as [| | | | | |e]; try discriminate H.
    cbn [city_record py_get rbind] in H.
    destruct (for_each city_record items) as [rest|] eqn:Hrest;
      [|discriminate H].
    cbn [rbind] in H. inversion H; subst cities.
    destruct (IH rest eq_refl) as ((entries & ->) & Hlen & Hall).
    split; [exists (e :: entries); reflexivity|].
    split; [cbn; congruence|].
    constructor; [|exact Hall]. do 3 eexists. reflexivity.
Qed.

Lemma for_each_city_record_dicts (entries : list (list (string * pyval))) :
  exists cities, for_each city_record (map PDict entries) = Ok cities.
Proof.
  induction entries as [|e entries [cities IH]]; [eexists; reflexivity|].
  cbn [map for_each city_record py_get rbind]. rewrite IH.
  eexists. reflexivity.
Qed.

Lemma parse_cities_ok (data : pyval) (cities : list pyval) :
  parse_cities data = Ok cities ->
  geo_data_walkable data (List.length cities) /\ Forall city_shaped cities.
Proof.
  intros H. unfold parse_cities in H.
  destruct data as [| | | | | |d]; try discriminate H.
  cbn [py_get rbind] in H.
  destruct (py_iter _) as [items|] eqn:Hiter; [|discriminate H].
  cbn [rbind] in H.
  destruct (for_each_city_record_ok _ _ H) as ((entries & ->) & Hlen & Hall).
  split; [|exact Hall].
  exists d, entries. repeat split; [exact Hiter|].
  now rewrite Hlen, length_map.
Qed.

(** X4.  The loop of [get_bc_cities] succeeds exactly on a dictionary
    whose ["data"] entry (an empty list when the key is missing) iterates
    over dictionaries only; it then returns one record per entry, each
    with exactly the keys name, latitude and longitude, whatever keys the
    entry had. *)
Theorem parse_cities_succeeds_iff (data : pyval) :
  ((exists cities, parse_cities data = Ok cities) <->
   exists n, geo_data_walkable data n) /\
  (forall cities,
     parse_cities data = Ok cities ->
     geo_data_walkable data (List.length cities) /\
     Forall city_shaped cities).
Proof.
  split; [split|exact (parse_cities_ok data)].
  - intros [cities H]. exists (List.length cities).
    now apply parse_cities_ok.
  - intros (n & d & entries & -> & Hiter & _).
    unfold parse_cities. cbn [py_get rbind]. rewrite Hiter. cbn [rbind].
    apply for_each_city_record_dicts.
Qed.

Lemma parse_cities_raises (data : pyval) (e : exn) :
  parse_cities data = Raise e -> e = AttributeError \/ e = TypeError.
Proof.
  unfold parse_cities.
  destruct data as [| | | | | |d]; cbn [py_get rbind];
    try (intros H; inversion H; now left).
  destruct (py_iter _) as [items|e'] eqn:Hiter; cbn [rbind].
  - clear Hiter. induction items as [|item items IH]; [discriminate|].
    cbn [for_each].
    destruct item as [| | | | | |c]; cbn [city_record py_get rbind];
      try (intros H; inversion H; now left).
    destruct (for_each city_record items); cbn [rbind];
      [discriminate | exact IH].
  - intros H; inversion H; subst e'.
    destruct (match assoc_get "data" d with Some v => v | None => PList [] end);
      cbn in Hiter; inversion Hiter; now right.
Qed.

Lemma find_coordinates_city_shaped (cities : list pyval) (name : string) :
  Forall city_shaped cities ->
  (exists c, find_coordinates cities name = Ok c) \/
  find_coordinates cities name = Raise AttributeError.
Proof.
  induction 1 as [|city cities Hc _ IH]; [left; eexists; reflexivity|].
  destruct Hc as (n & la & lo & ->).
  cbn [find_coordinates].
  change (py_getitem (PDict [("name", n); ("latitude", la); ("longitude", lo)])
            (PStr "name")) with (@Ok pyval n).
  cbn [rbind].
  destruct n; cbn [py_lower rbind]; try (now right).
  destruct (String.eqb (str_lower s) (str_lower name)); [|exact IH].
  left. eexists. reflexivity.
Qed.

(** X5.  Coordinate resolution raises nothing but what the geo call
    raises (RequestException from the transport; JSONDecodeError,
    RecursionError or ValueError from decoding the body), what walking
    its data raises (AttributeError, TypeError) and AttributeError for a
    fetched name that is not a string: the subscripts of its loop never
    raise KeyError, since every fetched record has the three keys. *)
Theorem get_coordinates_raises_only (E : environment) (name : string)
    (w w' : world) (e : exn) :
  get_coordinates E name w = (Raise e, w') ->
  e = RequestException \/
  e = JSONDecodeError \/ e = RecursionError \/ e = ValueError \/
  e = AttributeError \/ e = TypeError.
Proof.
  rewrite get_coordinates_eq, get_bc_cities_eq.
  destruct (requests_get E (tick w) geo_url) as [r|];
    [|intros H; inversion H; auto].
  unfold response_json.
  destruct (json_body r) as [data|]; cbn [rbind].
  2:{ intros H; inversion H. destruct (json_failure r); cbn; tauto. }
  destruct (parse_cities data) as [cities|e'] eqn:Hp.
  - destruct (parse_cities_ok data cities Hp) as [_ Hall].
    destruct (find_coordinates_city_shaped cities name Hall) as [[c Hc]|Hc];
      rewrite Hc; intros H; inversion H; tauto.
  - intros H; inversion H; subst e'.
    destruct (parse_cities_raises _ _ Hp); tauto.
Qed.

Lemma get_coordinates_raises_only_witness :
  get_coordinates fixture_geo_too_deep "Vancouver" empty_world
  = (Raise RecursionError, advance empty_world) /\
  (RecursionError = RequestException \/
   RecursionError = JSONDecodeError \/ RecursionError = RecursionError \/
   RecursionError = ValueError \/
   RecursionError = AttributeError \/ RecursionError = TypeError).
Proof.
  split; [reflexivity|].
  apply (get_coordinates_raises_only fixture_geo_too_deep "Vancouver"
           empty_world (advance empty_world) RecursionError).
  reflexivity.
Defined.

Lemma lower_char_idempotent (c : ascii) :
  lower_char (lower_char c) = lower_char c.
Proof.
  destruct c as [[] [] [] [] [] [] [] []]; reflexivity.
Qed.

Lemma str_lower_idempotent (s : string) :
  str_lower (str_lower s) = str_lower s.
Proof.
  induction s as [|c s IH]; [reflexivity|].
  cbn [str_lower]. now rewrite lower_char_idempotent, IH.
Qed.

Lemma find_coordinates_same_name (cities : list pyval) (a b : string) :
  same_name a b -> find_coordinates cities a = find_coordinates cities b.
Proof.
  intros Hab. induction cities as [|city cities IH]; [reflexivity|].
  cbn [find_coordinates]. unfold same_name in Hab. now rewrite Hab, IH.
Qed.

(** X6.  The letter case of the requested name never matters to
    coordinate resolution: two names that are equal when case is ignored
    get the same result, a failure included, and so does a name and its
    lower-case form. *)
Theorem get_coordinates_ignores_case (E : environment) (a b : string)
    (w : world) :
  same_name a b ->
  get_coordinates E a w = get_coordinates E b w /\
  get_coordinates E (str_lower a) w = get_coordinates E a w.
Proof.
  intros Hab. rewrite !get_coordinates_eq.
  destruct (get_bc_cities E w) as [[cities|e] w']; [|split; reflexivity].
  split.
  - now rewrite (find_coordinates_same_name cities a b Hab).
  - rewrite (find_coordinates_same_name cities (str_lower a) a);
      [reflexivity|]. apply str_lower_idempotent.
Qed.

Lemma get_coordinates_ignores_case_witness :
  get_coordinates fixture_up "VANCOUVER" empty_world
  = get_coordinates fixture_up "vancouver" empty_world /\
  get_coordinates fixture_up (str_lower "VANCOUVER") empty_world
  = get_coordinates fixture_up "VANCOUVER" empty_world.
Proof.
  apply (get_coordinates_ignores_case fixture_up "VANCOUVER" "vancouver"
           empty_world).
  reflexivity.
Defined.

(** ** The weather lookup *)

Lemma parse_weather_shape (data v : pyval) :
  parse_weather data = Ok v -> weather_shaped v.
Proof.
  unfold parse_weather. repeat step_rbind.
  intros H; inversion H. do 2 eexists. reflexivity.
Qed.

(** X7.  A weather lookup that returns has made exactly one request and
    has not touched the store.  Its value is either the fallback record,
    and then exactly one line was printed, or a record with a float
    temperature and the description of the response, and then nothing
    was printed; the two cannot be confused. *)
Theorem get_weather_result (E : environment) (name : string) (w w' : world)
    (v : pyval) :
  get_weather E name w = (Ok v, w') ->
  tick w' = S (tick w) /\
  collection w' = collection w /\
  ((v = weather_fallback /\
    exists e, log w' = (log w ++ [Weather_parsing_error e])%list) \/
   (weather_shaped v /\ v <> weather_fallback /\ log w' = log w)).
Proof.
  rewrite get_weather_eq.
  destruct (requests_get E (tick w) (weather_url E name)) as [r|];
    [|discriminate].
  destruct (response_json r) as [data|]; [|discriminate].
  destruct (parse_weather data) as [v'|e] eqn:Hp; intros H; inversion H;
    subst; (split; [reflexivity | split; [reflexivity|]]).
  - right. destruct (parse_weather_shape _ _ Hp) as (t & desc & ->).
    split; [do 2 eexists; reflexivity|].
    split; [discriminate | reflexivity].
  - left. split; [reflexivity|]. exists e. reflexivity.
Qed.

Lemma get_weather_result_witness :
  tick (advance empty_world) = S (tick empty_world) /\
  collection (advance empty_world) = collection empty_world /\
  ((PDict [("temperature", PFloat 10); ("description", PStr "clear")]
    = weather_fallback /\
    exists e,
      log (advance empty_world)
      = (log empty_world ++ [Weather_parsing_error e])%list) \/
   (weather_shaped
      (PDict [("temperature", PFloat 10); ("description", PStr "clear")]) /\
    PDict [("temperature", PFloat 10); ("description", PStr "clear")]
    <> weather_fallback /\
    log (advance empty_world) = log empty_world)).
Proof.
  apply (get_weather_result fixture_up "Vancouver" empty_world).
  reflexivity.
Defined.

(** X8.  Inside the [try] of [get_weather] each missing piece of the
    response gives the fallback record and one printed line: no ["main"]
    or no ["temp"] (KeyError), a temperature that is a string or null
    (TypeError), no ["weather"] (KeyError), an empty ["weather"] list
    (IndexError). *)
Theorem get_weather_edge_cases (E : environment) (name : string) (w : world)
    (r : response) (d : list (string * pyval)) :
  requests_get E (tick w) (weather_url E name) = Some r ->
  json_body r = Some (PDict d) ->
  let fallback_with e :=
    (Ok weather_fallback, add_log (advance w) (Weather_parsing_error e)) in
  (assoc_get "main" d = None ->
   get_weather E name w = fallback_with KeyError) /\
  (forall dm,
     assoc_get "main" d = Some (PDict dm) ->
     (assoc_get "temp" dm = None ->
      get_weather E name w = fallback_with KeyError) /\
     (forall s, assoc_get "temp" dm = Some (PStr s) ->
                get_weather E name w = fallback_with TypeError) /\
     (assoc_get "temp" dm = Some PNone ->
      get_weather E name w = fallback_with TypeError) /\
     (forall kelvin k,
        assoc_get "temp" dm = Some kelvin -> number_value kelvin k ->
        (assoc_get "weather" d = None ->
         get_weather E name w = fallback_with KeyError) /\
        (assoc_get "weather" d = Some (PList []) ->
         get_weather E name w = fallback_with IndexError))).
Proof.
  intros Hr Hj. cbv zeta.
  rewrite get_weather_eq, Hr. unfold response_json. rewrite Hj.
  unfold parse_weather. cbn [py_getitem].
  split; [intros H; now rewrite H|].
  intros dm Hm. rewrite Hm. cbn [rbind py_getitem].
  split; [intros H; now rewrite H|].
  split; [intros s H; now rewrite H|].
  split; [intros H; now rewrite H|].
  intros kelvin k Ht Hk. rewrite Ht. cbn [rbind].
  rewrite (py_sub_float_number _ _ _ Hk). cbn [rbind].
  split; intros H; now rewrite H.
Qed.

Lemma get_weather_edge_cases_witness :
  get_weather fixture_weather_empty_list "Vancouver" empty_world
  = (Ok weather_fallback,
     add_log (advance empty_world) (Weather_parsing_error IndexError)).
Proof.
  destruct (get_weather_edge_cases fixture_weather_empty_list "Vancouver"
              empty_world _ _ eq_refl eq_refl) as [_ Hmain].
  destruct (Hmain _ eq_refl) as (_ & _ & _ & Htemp).
  destruct (Htemp (PFloat 283.15) 283.15%float eq_refl (or_introl eq_refl))
    as [_ Hempty].
  exact (Hempty eq_refl).
Defined.

(** ** The advice rule *)

Lemma description_of_cases (w : pyval) :
  (exists v, description_of w = Ok v) \/ description_of w = Raise TypeError.
Proof.
  unfold description_of.
  destruct w as [|b|z|f|s|l|d]; cbn [py_truthy py_contains].
  - left. eexists. reflexivity.
  - destruct b; [now right | left; eexists; reflexivity].
  - destruct (negb (z =? 0)); [now right | left; eexists; reflexivity].
  - destruct (negb (PrimFloat.eqb f 0)); [now right | left; eexists; reflexivity].
  - destruct (negb (String.eqb s EmptyString)); cbn [rbind];
      [|left; eexists; reflexivity].
    destruct (str_in "description" s);
      [now right | left; eexists; reflexivity].
  - destruct l as [|x l]; cbn [rbind]; [left; eexists; reflexivity|].
    destruct (existsb _ (x :: l)); [now right | left; eexists; reflexivity].
  - destruct d as [|kv d]; cbn [rbind]; [left; eexists; reflexivity|].
    unfold assoc_mem, py_getitem.
    destruct (assoc_get "description" (kv :: d)); left; eexists; reflexivity.
Qed.

Lemma weather_bad_cases (desc : pyval) :
  (exists b, weather_bad desc = Ok b) \/
  weather_bad desc = Raise AttributeError.
Proof.
  destruct desc; try (now right). left. eexists. reflexivity.
Qed.

(** X9.  Whatever two values and time the advice rule is given, it
    returns one of its two messages or raises TypeError or
    AttributeError; the subscript [w['description']] never raises
    KeyError, since the membership test stands before it. *)
Theorem get_travel_advice_outcomes (weather_start weather_end : pyval)
    (current_time : datetime) :
  let r := get_travel_advice weather_start weather_end current_time in
  r = Ok delay_message \/ r = Ok good_time_message \/
  r = Raise TypeError \/ r = Raise AttributeError.
Proof.
  cbv zeta. unfold get_travel_advice.
  destruct (description_of_cases weather_start) as [[ds ->] | ->];
    cbn [rbind]; [|auto].
  destruct (description_of_cases weather_end) as [[de ->] | ->];
    cbn [rbind]; [|auto].
  destruct (weather_bad_cases ds) as [[bs ->] | ->]; cbn [rbind]; [|auto].
  destruct (weather_bad_cases de) as [[be ->] | ->]; cbn [rbind]; [|auto].
  destruct (bs || be); [auto|].
  destruct ((23 <=? hour current_time) || (hour current_time <=? 4)); auto.
Qed.

Lemma str_append_assoc (a b c : string) :
  ((a ++ b) ++ c = a ++ (b ++ c))%string.
Proof. induction a; cbn; congruence. Qed.

Lemma thunderstorm_has_storm (s : string) :
  str_in "thunderstorm" s = true -> str_in "storm" s = true.
Proof.
  rewrite !str_in_iff. intros (pre & suf & ->).
  exists (pre ++ "thunder")%string, suf.
  now rewrite str_append_assoc.
Qed.

(** X10.  The entry thunderstorm of [bad_weather_conditions] never
    decides: a description that contains it contains storm, so the test
    gives what it gives with rain, snow and storm alone. *)
Theorem thunderstorm_is_redundant (desc : pyval) :
  weather_bad desc =
  (d <- py_lower desc ;;
   Ok (str_in "rain" d || str_in "snow" d || str_in "storm" d)).
Proof.
  unfold weather_bad, bad_weather_conditions.
  destruct (py_lower desc) as [d|e]; cbn [rbind existsb]; [|reflexivity].
  f_equal. rewrite orb_false_r.
  destruct (str_in "thunderstorm" d) eqn:Ht.
  - rewrite (thunderstorm_has_storm d Ht). now rewrite !orb_true_r.
  - now rewrite orb_false_r, !orb_assoc.
Qed.

(** X11.  For two weather records with string descriptions the advice
    depends on nothing but the two descriptions and the hour, and it is
    the same when start and end are exchanged. *)
Theorem advice_depends_on_descriptions (a b a' b' : list (string * pyval))
    (d1 d2 : string) (t t' : datetime) :
  assoc_get "description" a = Some (PStr d1) ->
  assoc_get "description" b = Some (PStr d2) ->
  assoc_get "description" a' = Some (PStr d1) ->
  assoc_get "description" b' = Some (PStr d2) ->
  hour t' = hour t ->
  get_travel_advice (PDict a') (PDict b') t'
  = get_travel_advice (PDict a) (PDict b) t /\
  get_travel_advice (PDict b) (PDict a) t
  = get_travel_advice (PDict a) (PDict b) t.
Proof.
  intros Ha Hb Ha' Hb' Ht. unfold get_travel_advice.
  rewrite (description_of_dict _ _ Ha), (description_of_dict _ _ Hb),
    (description_of_dict _ _ Ha'), (description_of_dict _ _ Hb'), Ht.
  cbn [rbind weather_bad py_lower].
  split; [reflexivity|]. now rewrite orb_comm.
Qed.

Lemma advice_depends_on_descriptions_witness :
  get_travel_advice (PDict (weather_record (PFloat 30.5) "light rain"))
    (PDict (weather_record PNone "clear")) (at_hour 10)
  = get_travel_advice (PDict (weather_record (PFloat 7.5) "light rain"))
      (PDict (weather_record (PFloat 9.1) "clear")) (at_hour 10) /\
  get_travel_advice (PDict (weather_record (PFloat 9.1) "clear"))
    (PDict (weather_record (PFloat 7.5) "light rain")) (at_hour 10)
  = get_travel_advice (PDict (weather_record (PFloat 7.5) "light rain"))
      (PDict (weather_record (PFloat 9.1) "clear")) (at_hour 10).
Proof.
  apply (advice_depends_on_descriptions _ _ _ _ "light rain" "clear");
    reflexivity.
Defined.

(** ** The route lookup *)

Lemma get_coordinates_advances (E : environment) (name : string)
    (w w' : world) (r : result (pyval * pyval)) :
  get_coordinates E name w = (r, w') -> w' = advance w.
Proof.
  intros H. pose proof (get_coordinates_world E name w) as Hw.
  rewrite H in Hw. exact Hw.
Qed.

(** X12.  A route lookup that returns has made exactly three requests
    (the city list twice, the route once) and has not touched the store.
    Its value is either the zeroed fallback, and then exactly one line
    was printed, or a record with float distance and duration and a step
    list, and then nothing was printed; the two cannot be confused. *)
Theorem get_route_result (E : environment) (start_c end_c : string)
    (w w' : world) (v : pyval) :
  get_route E start_c end_c w = (Ok v, w') ->
  tick w' = S (S (S (tick w))) /\
  collection w' = collection w /\
  ((v = zero_route /\ exists entry, log w' = (log w ++ [entry])%list) \/
   (v <> zero_route /\ log w' = log w /\
    exists km minutes outs,
      v = PDict [("distance", PFloat km); ("duration", PFloat minutes);
                 ("steps", PList outs)])).
Proof.
  destruct (get_coordinates E start_c w) as [[[slat slon]|e1] w1] eqn:H1.
  2:{ unfold get_route. rewrite (bind_raise _ _ _ _ _ H1). discriminate. }
  pose proof (get_coordinates_advances _ _ _ _ _ H1) as ->.
  destruct (get_coordinates E end_c (advance w)) as [[[elat elon]|e2] w2]
    eqn:H2.
  2:{ unfold get_route. rewrite (bind_ok _ _ _ _ _ H1). cbv beta iota.
      rewrite (bind_raise _ _ _ _ _ H2). discriminate. }
  pose proof (get_coordinates_advances _ _ _ _ _ H2) as ->.
  rewrite (get_route_eq _ _ _ _ _ _ _ _ _ _ H1 H2). cbv zeta.
  assert (forall entry,
            (Ok zero_route, add_log (advance (advance (advance w))) entry)
            = (Ok v, w') ->
            tick w' = S (S (S (tick w))) /\
            collection w' = collection w /\
            ((v = zero_route /\
              exists entry, log w' = (log w ++ [entry])%list) \/
             (v <> zero_route /\ log w' = log w /\
              exists km minutes outs,
                v = PDict [("distance", PFloat km);
                           ("duration", PFloat minutes);
                           ("steps", PList outs)]))) as Hzero.
  { intros entry H. inversion H; subst.
    split; [reflexivity|]. split; [reflexivity|]. left.
    split; [reflexivity|]. exists entry. reflexivity. }
  destruct (requests_post E _ route_url _) as [resp|]; [|apply Hzero].
  destruct (response_json resp) as [data|e]; [|apply Hzero].
  destruct (no_routes data) as [[|]|e]; [apply Hzero | | apply Hzero].
  destruct (parse_route data) as [v0|e] eqn:Hp; [|apply Hzero].
  intros H. inversion H; subst.
  destruct (parse_route_shape _ _ Hp) as (km & minutes & outs & ->).
  split; [reflexivity|]. split; [reflexivity|]. right.
  split; [discriminate|]. split; [reflexivity|]. eauto.
Qed.

Lemma get_route_result_witness :
  tick after_route_lookup = S (S (S (tick empty_world))) /\
  collection after_route_lookup = collection empty_world /\
  ((PDict [("distance", PFloat 12.3); ("duration", PFloat 2.1);
           ("steps", PList fixture_short_steps_listed)] = zero_route /\
    exists entry,
      log after_route_lookup = (log empty_world ++ [entry])%list) \/
   (PDict [("distance", PFloat 12.3); ("duration", PFloat 2.1);
           ("steps", PList fixture_short_steps_listed)] <> zero_route /\
    log after_route_lookup = log empty_world /\
    exists km minutes outs,
      PDict [("distance", PFloat 12.3); ("duration", PFloat 2.1);
             ("steps", PList fixture_short_steps_listed)]
      = PDict [("distance", PFloat km); ("duration", PFloat minutes);
               ("steps", PList outs)])).
Proof.
  apply (get_route_result fixture_short_route "Vancouver" "Victoria"
           empty_world).
  reflexivity.
Defined.

(** X13.  Edge cases of a decoded routing reply, once both coordinate
    resolutions have returned: an empty ["routes"] list gives the
    fallback and prints the reply; a first route without ["segments"]
    (KeyError) or with an empty segment list (IndexError) gives the
    fallback; a first segment without steps, distance and duration is no
    failure: the lookup returns distance 0.0, duration 0.0 and no steps
    and prints nothing. *)
Theorem get_route_edge_cases (E : environment) (start_c end_c : string)
    (w w1 w2 : world) (start_lat start_lon end_lat end_lon : pyval)
    (r : response) (d : list (string * pyval)) :
  get_coordinates E start_c w = (Ok (start_lat, start_lon), w1) ->
  get_coordinates E end_c w1 = (Ok (end_lat, end_lon), w2) ->
  requests_post E (tick w2) route_url
    (route_body start_lat start_lon end_lat end_lon) = Some r ->
  json_body r = Some (PDict d) ->
  (assoc_get "routes" d = Some (PList []) ->
   get_route E start_c end_c w
   = (Ok zero_route, add_log (advance w2) (Route_API_error (PDict d)))) /\
  (forall route others,
     assoc_get "routes" d = Some (PList (PDict route :: others)) ->
     (assoc_get "segments" route = None ->
      get_route E start_c end_c w
      = (Ok zero_route,
         add_log (advance w2) (Route_parsing_error KeyError))) /\
     (assoc_get "segments" route = Some (PList []) ->
      get_route E start_c end_c w
      = (Ok zero_route,
         add_log (advance w2) (Route_parsing_error IndexError))) /\
     (forall segment more,
        assoc_get "segments" route = Some (PList (PDict segment :: more)) ->
        assoc_get "steps" segment = None ->
        assoc_get "distance" segment = None ->
        assoc_get "duration" segment = None ->
        get_route E start_c end_c w
        = (Ok (PDict [("distance", PFloat 0); ("duration", PFloat 0);
                      ("steps", PList [])]), advance w2))).
Proof.
  intros H1 H2 Hr Hj.
  rewrite (get_route_eq _ _ _ _ _ _ _ _ _ _ H1 H2), Hr. cbv zeta.
  unfold response_json. rewrite Hj.
  unfold no_routes, parse_route, py_contains, assoc_mem. cbn [py_getitem].
  split; [intros H; now rewrite H|].
  intros route others Hroutes. rewrite Hroutes.
  cbn [rbind negb py_truthy py_getitem]. rewrite seq_index_head.
  cbn [rbind py_getitem].
  split; [intros H; now rewrite H|].
  split; [intros H; now rewrite H|].
  intros segment more Hsegs Hs Hd Ht. rewrite Hsegs.
  cbn [rbind py_getitem]. rewrite seq_index_head.
  cbn [rbind py_get]. now rewrite Hs, Hd, Ht.
Qed.

Lemma get_route_edge_cases_witness :
  get_route fixture_bare_segment "Vancouver" "Victoria" empty_world
  = (Ok (PDict [("distance", PFloat 0); ("duration", PFloat 0);
                ("steps", PList [])]), after_route_lookup).
Proof.
  destruct (get_route_edge_cases fixture_bare_segment "Vancouver" "Victoria"
              empty_world (advance empty_world)
              (advance (advance empty_world))
              _ _ _ _ _ _ eq_refl eq_refl eq_refl eq_refl) as [_ Hroute].
  destruct (Hroute _ _ eq_refl) as (_ & _ & Hsegment).
  exact (Hsegment _ _ eq_refl eq_refl eq_refl eq_refl).
Defined.

(** ** The form page *)

Lemma get_bc_cities_ok (E : environment) (w w' : world)
    (cities : list pyval) :
  get_bc_cities E w = (Ok cities, w') ->
  w' = advance w /\ Forall city_shaped cities.
Proof.
  rewrite get_bc_cities_eq. intros H. inversion H as [[Hr Hw]].
  split; [reflexivity|].
  destruct (requests_get E (tick w) geo_url) as [r|]; [|discriminate Hr].
  destruct (response_json r) as [data|]; [|discriminate Hr].
  cbn [rbind] in Hr. now apply (parse_cities_ok data).
Qed.

Lemma get_bc_cities_raises (E : environment) (w w' : world) (e : exn) :
  get_bc_cities E w = (Raise e, w') ->
  w' = advance w /\ geo_call_fails E (tick w) e.
Proof.
  rewrite get_bc_cities_eq. intros H. inversion H as [[Hr Hw]].
  split; [reflexivity|].
  destruct (requests_get E (tick w) geo_url) as [r|] eqn:Hget.
  - unfold response_json in Hr.
    destruct (json_body r) as [data|] eqn:Hj; cbn [rbind] in Hr.
    + now apply (geo_data_malformed E (tick w) r data e).
    + inversion Hr. now apply (geo_body_not_decoded E (tick w) r).
  - inversion Hr. now apply geo_transport_failure.
Qed.

Lemma geo_call_fails_exception (E : environment) (t : nat) (e : exn) :
  geo_call_fails E t e -> page_exception e.
Proof.
  unfold page_exception. intros H.
  destruct H as [H | r H Hj | r data e H Hj Hp].
  - tauto.
  - destruct (json_failure r); cbn; tauto.
  - destruct (parse_cities_raises _ _ Hp); tauto.
Qed.

(** X14.  A request without a valid submission (a GET, or a POST whose
    form does not validate) makes one geo call and nothing else: nothing
    is looked up, stored or printed.  The page then has the fetched city
    records and None in every result field; it fails exactly when the geo
    call fails, so the empty form itself is not served while the geo
    service is down. *)
Theorem index_without_submission (E : environment) (req : request)
    (w : world) :
  no_submission E req ->
  snd (index E req w) = advance w /\
  match fst (index E req w) with
  | Ok ctx =>
      ctx_weather_start ctx = PNone /\ ctx_weather_end ctx = PNone /\
      ctx_route_details ctx = PNone /\ ctx_travel_advice ctx = PNone /\
      get_bc_cities E w = (Ok (ctx_cities ctx), advance w) /\
      Forall city_shaped (ctx_cities ctx)
  | Raise e => geo_call_fails E (tick w) e
  end.
Proof.
  unfold no_submission, index. intros ->.
  destruct (get_bc_cities E w) as [[cities|e] w1] eqn:Hc.
  - rewrite (bind_ok _ _ _ _ _ Hc).
    destruct (get_bc_cities_ok _ _ _ _ Hc) as [-> Hall].
    cbn. repeat split; assumption.
  - rewrite (bind_raise _ _ _ _ _ Hc).
    destruct (get_bc_cities_raises _ _ _ _ Hc) as [-> Hfail].
    split; [reflexivity | exact Hfail].
Qed.

Lemma index_without_submission_witness :
  no_submission fixture_up (POST [("start_city", "Vancouver")]) /\
  snd (index fixture_up (POST [("start_city", "Vancouver")]) fixture_stored)
  = advance fixture_stored /\
  match fst (index fixture_up (POST [("start_city", "Vancouver")])
               fixture_stored) with
  | Ok ctx =>
      ctx_weather_start ctx = PNone /\ ctx_weather_end ctx = PNone /\
      ctx_route_details ctx = PNone /\ ctx_travel_advice ctx = PNone /\
      get_bc_cities fixture_up fixture_stored
      = (Ok (ctx_cities ctx), advance fixture_stored) /\
      Forall city_shaped (ctx_cities ctx)
  | Raise e => geo_call_fails fixture_up (tick fixture_stored) e
  end.
Proof.
  split; [reflexivity|].
  apply (index_without_submission fixture_up
           (POST [("start_city", "Vancouver")]) fixture_stored).
  reflexivity.
Defined.

Lemma get_weather_cases (E : environment) (name : string) (w w' : world)
    (r : result pyval) :
  get_weather E name w = (r, w') ->
  collection w' = collection w /\
  match r with
  | Ok v => v = weather_fallback \/ weather_shaped v
  | Raise e =>
      e = RequestException \/
      e = JSONDecodeError \/ e = RecursionError \/ e = ValueError
  end.
Proof.
  rewrite get_weather_eq.
  destruct (requests_get E (tick w) (weather_url E name)) as [resp|];
    [|intros H; inversion H; auto].
  unfold response_json.
  destruct (json_body resp) as [data|].
  2:{ intros H; inversion H. split; [reflexivity|].
      destruct (json_failure resp); cbn; tauto. }
  destruct (parse_weather data) as [v|e] eqn:Hp;
    intros H; inversion H; subst; split; auto.
  right. exact (parse_weather_shape _ _ Hp).
Qed.

Lemma find_coordinates_raises (cities : list pyval) (name : string)
    (e : exn) :
  Forall city_shaped cities ->
  find_coordinates cities name = Raise e -> e = AttributeError.
Proof.
  intros Hall H.
  destruct (find_coordinates_city_shaped cities name Hall) as [[c Hc]|Hc];
    congruence.
Qed.

Lemma get_coordinates_exception (E : environment) (name : string)
    (w w' : world) (e : exn) :
  get_coordinates E name w = (Raise e, w') -> page_exception e.
Proof.
  rewrite get_coordinates_eq.
  destruct (get_bc_cities E w) as [[cities|e'] w1] eqn:Hc.
  - destruct (get_bc_cities_ok _ _ _ _ Hc) as [_ Hall].
    intros H; inversion H as [[Hf Hw]].
    rewrite (find_coordinates_raises _ _ _ Hall Hf).
    unfold page_exception; tauto.
  - destruct (get_bc_cities_raises _ _ _ _ Hc) as [_ Hfail].
    intros H; inversion H; subst.
    exact (geo_call_fails_exception _ _ _ Hfail).
Qed.

Lemma get_route_exception (E : environment) (start_c end_c : string)
    (w w' : world) (e : exn) :
  get_route E start_c end_c w = (Raise e, w') -> page_exception e.
Proof.
  destruct (get_coordinates E start_c w) as [[[slat slon]|e1] w1] eqn:H1.
  2:{ unfold get_route. rewrite (bind_raise _ _ _ _ _ H1).
      intros H; inversion H; subst.
      exact (get_coordinates_exception _ _ _ _ _ H1). }
  destruct (get_coordinates E end_c w1) as [[[elat elon]|e2] w2] eqn:H2.
  2:{ unfold get_route. rewrite (bind_ok _ _ _ _ _ H1). cbv beta iota.
      rewrite (bind_raise _ _ _ _ _ H2).
      intros H; inversion H; subst.
      exact (get_coordinates_exception _ _ _ _ _ H2). }
  destruct (get_route_returns _ _ _ _ _ _ _ _ H1 H2) as (v & w3 & ->).
  discriminate.
Qed.

Lemma get_travel_advice_exception (weather_start weather_end : pyval)
    (current_time : datetime) (e : exn) :
  get_travel_advice weather_start weather_end current_time = Raise e ->
  e = TypeError \/ e = AttributeError.
Proof.
  unfold get_travel_advice.
  destruct (description_of_cases weather_start) as [[ds ->] | ->];
    cbn [rbind]; [|intros H; inversion H; auto].
  destruct (description_of_cases weather_end) as [[de ->] | ->];
    cbn [rbind]; [|intros H; inversion H; auto].
  destruct (weather_bad_cases ds) as [[bs ->] | ->]; cbn [rbind];
    [|intros H; inversion H; auto].
  destruct (weather_bad_cases de) as [[be ->] | ->]; cbn [rbind];
    [|intros H; inversion H; auto].
  destruct (bs || be); [discriminate|].
  destruct ((23 <=? hour current_time) || (hour current_time <=? 4));
    discriminate.
Qed.

Lemma get_travel_advice_message (weather_start weather_end : pyval)
    (current_time : datetime) (advice : string) :
  get_travel_advice weather_start weather_end current_time = Ok advice ->
  advice = delay_message \/ advice = good_time_message.
Proof.
  unfold get_travel_advice. repeat step_rbind.
  destruct (_ || _); [intros H; inversion H; auto|].
  destruct (_ || _); intros H; inversion H; auto.
Qed.

Lemma save_travel_query_returns (E : environment)
    (start_c end_c summary : string) (w : world) :
  exists saved wd,
    save_travel_query E start_c end_c summary w = (Ok saved, wd).
Proof.
  rewrite save_travel_query_eq.
  destruct (mongo_reachable E (S (S (tick w)))); eauto.
Qed.

(** X15.  The page served for a valid submission has every result field
    filled: each weather field is a record with a float temperature and
    the reported description, or the fallback record of empty strings;
    the route field has a number for the distance, a number for the
    duration and a list of steps; the advice is one of the two messages;
    the cities are records of name, latitude and longitude.  No field is
    None. *)
Theorem index_page_for_submission (E : environment)
    (data : list (string * string)) (start_c end_c : string)
    (w w' : world) (ctx : context) :
  travel_form E data = Some (start_c, end_c) ->
  index E (POST data) w = (Ok ctx, w') ->
  (ctx_weather_start ctx = weather_fallback \/
   weather_shaped (ctx_weather_start ctx)) /\
  (ctx_weather_end ctx = weather_fallback \/
   weather_shaped (ctx_weather_end ctx)) /\
  (exists distance duration steps,
     ctx_route_details ctx
     = PDict [("distance", distance); ("duration", duration);
              ("steps", PList steps)] /\
     is_number distance /\ is_number duration) /\
  (ctx_travel_advice ctx = PStr delay_message \/
   ctx_travel_advice ctx = PStr good_time_message) /\
  Forall city_shaped (ctx_cities ctx).
Proof.
  intros Hform. rewrite (index_post_stages _ _ _ _ _ Hform).
  destruct (get_weather E start_c w) as [[ws|e] wa] eqn:Ha; [|discriminate].
  destruct (get_weather_cases _ _ _ _ _ Ha) as [_ Hws].
  destruct (get_weather E end_c wa) as [[we|e] wb] eqn:Hb; [|discriminate].
  destruct (get_weather_cases _ _ _ _ _ Hb) as [_ Hwe].
  destruct (get_route E start_c end_c wb) as [[route|e] wc] eqn:Hr;
    [|discriminate].
  destruct (get_route_shape _ _ _ _ _ _ Hr) as [_ Hshape].
  specialize (Hshape route eq_refl).
  destruct (get_travel_advice ws we _) as [advice|e] eqn:Hadv;
    [|discriminate].
  apply get_travel_advice_message in Hadv.
  destruct (summary_dict route) as [summary|e]; [|discriminate].
  destruct (save_travel_query E start_c end_c (json_dumps E summary)
              (advance wc)) as [[saved|e] wd]; [|discriminate].
  destruct (get_bc_cities E wd) as [[cities|e] we'] eqn:Hc; [|discriminate].
  destruct (get_bc_cities_ok _ _ _ _ Hc) as [_ Hall].
  intros H; inversion H; subst; cbn.
  repeat split; try assumption.
  destruct Hadv as [-> | ->]; auto.
Qed.

Lemma index_page_for_submission_witness :
  let ctx :=
    match fst (index fixture_up fixture_post empty_world) with
    | Ok ctx => ctx
    | Raise _ => mk_context PNone PNone PNone PNone []
    end in
  (ctx_weather_start ctx = weather_fallback \/
   weather_shaped (ctx_weather_start ctx)) /\
  (ctx_weather_end ctx = weather_fallback \/
   weather_shaped (ctx_weather_end ctx)) /\
  (exists distance duration steps,
     ctx_route_details ctx
     = PDict [("distance", distance); ("duration", duration);
              ("steps", PList steps)] /\
     is_number distance /\ is_number duration) /\
  (ctx_travel_advice ctx = PStr delay_message \/
   ctx_travel_advice ctx = PStr good_time_message) /\
  Forall city_shaped (ctx_cities ctx).
Proof.
  apply (index_page_for_submission fixture_up
           [("start_city", "Vancouver"); ("end_city", "Victoria")]
           "Vancouver" "Victoria" empty_world
           (snd (index fixture_up fixture_post empty_world)));
    reflexivity.
Defined.

Lemma summary_dict_returns (E : environment) (start_c end_c : string)
    (w w' : world) (route : pyval) :
  get_route E start_c end_c w = (Ok route, w') ->
  exists summary, summary_dict route = Ok summary.
Proof.
  intros Hr. destruct (get_route_shape _ _ _ _ _ _ Hr) as [_ Hshape].
  destruct (Hshape route eq_refl) as (distance & duration & steps & -> & _).
  rewrite summary_dict_of_route. eauto.
Qed.

(** X16.  Computing the context of the form page raises nothing but
    RequestException (a transport failure), JSONDecodeError,
    RecursionError and ValueError (a body [response.json()] does not
    decode, in the weather or the geo call), AttributeError and
    TypeError, whatever the request and the services do: a failure of
    the store (PyMongoError) never reaches the visitor, and no KeyError,
    IndexError or OverflowError escapes the lookups. *)
Theorem index_raises_only (E : environment) (req : request) (w w' : world)
    (e : exn) :
  index E req w = (Raise e, w') -> page_exception e.
Proof.
  destruct (match req with POST data => travel_form E data | GET => None end)
    as [[start_c end_c]|] eqn:Hform.
  - destruct req as [|data]; [discriminate Hform|].
    rewrite (index_post_stages _ _ _ _ _ Hform).
    destruct (get_weather E start_c w) as [[ws|e1] wa] eqn:Ha.
    2:{ destruct (get_weather_cases _ _ _ _ _ Ha) as [_ He].
        intros H; inversion H; subst. unfold page_exception. tauto. }
    destruct (get_weather E end_c wa) as [[we|e1] wb] eqn:Hb.
    2:{ destruct (get_weather_cases _ _ _ _ _ Hb) as [_ He].
        intros H; inversion H; subst. unfold page_exception. tauto. }
    destruct (get_route E start_c end_c wb) as [[route|e1] wc] eqn:Hr.
    2:{ intros H; inversion H; subst.
        exact (get_route_exception _ _ _ _ _ _ Hr). }
    destruct (get_travel_advice ws we _) as [advice|e1] eqn:Hadv.
    2:{ apply get_travel_advice_exception in Hadv.
        intros H; inversion H; subst. unfold page_exception. tauto. }
    destruct (summary_dict_returns _ _ _ _ _ _ Hr) as [summary ->].
    destruct (save_travel_query_returns E start_c end_c
                (json_dumps E summary) (advance wc)) as (saved & wd & ->).
    destruct (get_bc_cities E wd) as [[cities|e1] we'] eqn:Hc;
      [discriminate|].
    destruct (get_bc_cities_raises _ _ _ _ Hc) as [_ Hfail].
    intros H; inversion H; subst.
    exact (geo_call_fails_exception _ _ _ Hfail).
  - unfold index. rewrite Hform.
    destruct (get_bc_cities E w) as [[cities|e1] w1] eqn:Hc;
      [rewrite (bind_ok _ _ _ _ _ Hc); discriminate|].
    rewrite (bind_raise _ _ _ _ _ Hc).
    destruct (get_bc_cities_raises _ _ _ _ Hc) as [_ Hfail].
    intros H; inversion H; subst.
    exact (geo_call_fails_exception _ _ _ Hfail).
Qed.

Lemma index_raises_only_witness :
  index fixture_geo_too_deep fixture_post empty_world
  = (Raise RecursionError, advance (advance (advance empty_world))) /\
  page_exception RecursionError.
Proof.
  split; [reflexivity|].
  apply (index_raises_only fixture_geo_too_deep fixture_post empty_world
           (advance (advance (advance empty_world))) RecursionError).
  reflexivity.
Defined.

Lemma description_of_record (temperature v : pyval) :
  description_of (PDict [("temperature", temperature); ("description", v)])
  = Ok v.
Proof. reflexivity. Qed.

Lemma weather_record_described (v : pyval) :
  v = weather_fallback \/ weather_shaped v -> exists d, description_of v = Ok d.
Proof.
  intros [-> | (t & d & ->)]; eexists; apply description_of_record.
Qed.

Lemma weather_bad_not_a_string (v : pyval) :
  not_a_string v -> weather_bad v = Raise AttributeError.
Proof.
  intros Hv. destruct v as [| | | |s| |]; try reflexivity.
  now destruct (Hv s).
Qed.

(** X17.  A description that is not a string (a JSON null or number in
    the weather service's answer) passes the [try] of [get_weather]
    untouched and then makes the advice rule raise AttributeError at
    [.lower()]: with such a description for either city the submission
    fails after the three lookups and before anything is stored. *)
Theorem non_string_description_fails_page (E : environment)
    (data : list (string * string)) (start_c end_c : string)
    (w wa wb wc : world) (weather_start weather_end route v : pyval) :
  travel_form E data = Some (start_c, end_c) ->
  get_weather E start_c w = (Ok weather_start, wa) ->
  get_weather E end_c wa = (Ok weather_end, wb) ->
  get_route E start_c end_c wb = (Ok route, wc) ->
  not_a_string v ->
  described_by v weather_start \/ described_by v weather_end ->
  index E (POST data) w = (Raise AttributeError, advance wc) /\
  collection (advance wc) = collection w.
Proof.
  intros Hform Ha Hb Hr Hv Hdesc.
  destruct (get_weather_cases _ _ _ _ _ Ha) as [Ca Hws].
  destruct (get_weather_cases _ _ _ _ _ Hb) as [Cb Hwe].
  destruct (get_route_shape _ _ _ _ _ _ Hr) as [Cc _].
  split; [|cbn; congruence].
  rewrite (index_post_stages _ _ _ _ _ Hform), Ha, Hb, Hr.
  assert (get_travel_advice weather_start weather_end
            (datetime_fromtimestamp (clock E (tick wc)) pacific_utcoffset)
          = Raise AttributeError) as ->; [|reflexivity].
  unfold get_travel_advice.
  destruct Hdesc as [(t & ->) | (t & ->)].
  - rewrite description_of_record.
    destruct (weather_record_described _ Hwe) as [de ->].
    cbn [rbind]. now rewrite (weather_bad_not_a_string _ Hv).
  - destruct (weather_record_described _ Hws) as [ds ->].
    rewrite description_of_record. cbn [rbind].
    destruct (weather_bad_cases ds) as [[bs ->] | ->]; [|reflexivity].
    cbn [rbind]. now rewrite (weather_bad_not_a_string _ Hv).
Qed.

Lemma non_string_description_fails_page_witness :
  index fixture_null_description fixture_post empty_world
  = (Raise AttributeError,
     advance (advance (advance (advance (advance (advance empty_world))))))
  /\ collection
       (advance (advance (advance (advance (advance (advance empty_world))))))
     = collection empty_world.
Proof.
  apply (non_string_description_fails_page fixture_null_description
           [("start_city", "Vancouver"); ("end_city", "Victoria")]
           "Vancouver" "Victoria"
           empty_world (advance empty_world) (advance (advance empty_world))
           (advance (advance (advance (advance (advance empty_world)))))
           (PDict [("temperature", PFloat 10); ("description", PNone)])
           (PDict [("temperature", PFloat 10); ("description", PNone)])
           (PDict [("distance", PFloat 100); ("duration", PFloat 90);
                   ("steps", PList [])])
           PNone).
  - reflexivity.
  - reflexivity.
  - reflexivity.
  - reflexivity.
  - intros s; discriminate.
  - left. exists (PFloat 10). reflexivity.
Defined.



(** Such a run: the geo service goes down after the route lookup; the
    submission is answered with RequestException, and its record is in
    the store. *)
Example record_stored_though_page_fails :
  exists w',
    index fixture_geo_fades fixture_post empty_world
    = (Raise RequestException, w') /\
    map (fun doc => (start_city doc, end_city doc, route_summary doc))
      (collection w')
    = [("Vancouver", "Victoria", "distance=?,duration=?,steps_count=3")].
Proof. eexists. split; reflexivity. Qed.
